(** * llm_internal_viz: the GGUF metadata inspector

    A shallow embedding of [inspect_architecture.py]: the raw binary
    metadata reader [inspect_gguf_raw], the library-backed front end
    [inspect_gguf] that falls back on it, and the script entry point.

    Conventions of the model.
    - A byte string is a [list byte]; an integer is a [Z].
    - A Python [str] is the list of its code points ([pystr]).
    - [print] appends one structured [line] per call to the console; the
      text of a line is not rendered (the decimal and float formatting of
      the interpreter is outside the model), its fields are kept.
    - [print] itself never fails: the console takes any text.
    - An exception is a value of [exn]; only subclasses of [Exception]
      are modelled.
    - The interpreter is a 64-bit build.  [f.read(n)] allocates a buffer
      of [n] bytes before it reads.  The interpreter is taken to hold any
      part of the file it is given, and any buffer of at most
      [DEFAULT_BUFFER_SIZE] bytes; a larger request that the file cannot
      fill is granted up to [alloc_max], a limit of the machine that the
      development leaves open, and refused beyond it. *)

From Stdlib Require Import ZArith String Ascii Bool Lia.
From Stdlib Require Import Strings.Byte.
From Stdlib Require Import List.
From Stdlib Require Import Floats.SpecFloat.
Import ListNotations.

Local Open Scope Z_scope.

(* ================================================================== *)
(** ** Bytes and little-endian integers *)

Definition byte_val (b : byte) : Z := Z.of_N (Byte.to_N b).

Definition byte_of_Z (z : Z) : byte :=
  match Byte.of_N (Z.to_N (z mod 256)) with
  | Some b => b
  | None => x00
  end.

(** The value of a little-endian byte string. *)
Fixpoint le_decode (bs : list byte) : Z :=
  match bs with
  | [] => 0
  | b :: t => byte_val b + 256 * le_decode t
  end.

(** The [n] low bytes of [z], least significant first. *)
Fixpoint le_encode (n : nat) (z : Z) : list byte :=
  match n with
  | O => []
  | S k => byte_of_Z z :: le_encode k (z / 256)
  end.

Definition len {A} (l : list A) : Z := Z.of_nat (length l).

(** [take n l] is the slice [l[:n]] and [drop n l] is [l[n:]], for a
    count that may exceed the length. *)
Fixpoint take {A} (n : Z) (l : list A) : list A :=
  match l with
  | [] => []
  | x :: t => if n <=? 0 then [] else x :: take (n - 1) t
  end.

Fixpoint drop {A} (n : Z) (l : list A) : list A :=
  match l with
  | [] => []
  | x :: t => if n <=? 0 then l else drop (n - 1) t
  end.

(* ================================================================== *)
(** ** Python strings and the UTF-8 codec *)

Definition pystr := list Z.

Definition pystr_of_string (s : string) : pystr :=
  map (fun a => Z.of_N (N_of_ascii a)) (list_ascii_of_string s).

Definition REPLACEMENT_CHARACTER : Z := 0xFFFD.

Definition is_cont (b : Z) : bool := (0x80 <=? b) && (b <=? 0xBF).

(** One pass of the interpreter's UTF-8 decoder over the byte values.
    [Some c] is a decoded code point; [None] marks one decoding error,
    which spans the longest prefix of the ill-formed sequence that could
    still start a well-formed one (an invalid start byte alone, the bytes
    before an invalid continuation byte, or everything left when the data
    ends inside a sequence).  Decoding resumes right after the error. *)
Fixpoint utf8_scan (bs : list Z) : list (option Z) :=
  match bs with
  | [] => []
  | b1 :: t1 =>
    if b1 <? 0x80 then Some b1 :: utf8_scan t1
    else if b1 <? 0xC2 then None :: utf8_scan t1
    else if b1 <? 0xE0 then
      match t1 with
      | [] => [None]
      | b2 :: t2 =>
        if is_cont b2
        then Some ((b1 - 0xC0) * 64 + (b2 - 0x80)) :: utf8_scan t2
        else None :: utf8_scan t1
      end
    else if b1 <? 0xF0 then
      match t1 with
      | [] => [None]
      | b2 :: t2 =>
        if negb (is_cont b2)
           || ((b1 =? 0xE0) && (b2 <? 0xA0))
           || ((b1 =? 0xED) && (0xA0 <=? b2))
        then None :: utf8_scan t1
        else
          match t2 with
          | [] => [None]
          | b3 :: t3 =>
            if is_cont b3
            then Some ((b1 - 0xE0) * 4096 + (b2 - 0x80) * 64 + (b3 - 0x80))
                 :: utf8_scan t3
            else None :: utf8_scan t2
          end
      end
    else if b1 <? 0xF5 then
      match t1 with
      | [] => [None]
      | b2 :: t2 =>
        if negb (is_cont b2)
           || ((b1 =? 0xF0) && (b2 <? 0x90))
           || ((b1 =? 0xF4) && (0x90 <=? b2))
        then None :: utf8_scan t1
        else
          match t2 with
          | [] => [None]
          | b3 :: t3 =>
            if is_cont b3
            then
              match t3 with
              | [] => [None]
              | b4 :: t4 =>
                if is_cont b4
                then Some ((b1 - 0xF0) * 262144 + (b2 - 0x80) * 4096
                           + (b3 - 0x80) * 64 + (b4 - 0x80))
                     :: utf8_scan t4
                else None :: utf8_scan t3
              end
            else None :: utf8_scan t2
          end
      end
    else None :: utf8_scan t1
  end.

Definition is_some {A} (o : option A) : bool :=
  match o with Some _ => true | None => false end.

Definition valid_utf8 (bs : list byte) : bool :=
  forallb is_some (utf8_scan (map byte_val bs)).

(* ================================================================== *)
(** ** IEEE 754 binary32 *)

(** The number denoted by a 32-bit pattern: sign bit, 8 exponent bits,
    23 fraction bits.  A Python [float] holds it exactly; it is kept in
    its binary32 form (mantissa below [2^24]). *)
Definition binary32_of_bits (x : Z) : spec_float :=
  let s := 2 ^ 31 <=? x in
  let e := (x / 2 ^ 23) mod 2 ^ 8 in
  let m := x mod 2 ^ 23 in
  if e =? 0 then
    if m =? 0 then S754_zero s else S754_finite s (Z.to_pos m) (-149)
  else if e =? 255 then
    if m =? 0 then S754_infinity s else S754_nan
  else S754_finite s (Z.to_pos (m + 2 ^ 23)) (e - 150).

(* ================================================================== *)
(** ** Exceptions and results *)

Inductive exn : Type :=
| StructError            (* struct.error: buffer of the wrong size *)
| UnicodeDecodeError     (* bytes.decode("utf-8") on ill-formed input *)
| OverflowError          (* read size does not fit an index or a bytes object *)
| MemoryError            (* the buffer of a read cannot be allocated *)
| AttributeError         (* attribute access on None *)
| IndexError             (* sequence index out of range *)
| ValueError (msg : string)
| OSError (msg : string) (* open() failures and other library errors *).

Inductive result (A : Type) : Type :=
| Ok (a : A)
| Raise (e : exn).
Arguments Ok {A} a.
Arguments Raise {A} e.

(** [bytes.decode("utf-8")]: the strict error handler raises at the first
    error. *)
Definition decode_utf8 (bs : list byte) : result pystr :=
  let sc := utf8_scan (map byte_val bs) in
  if forallb is_some sc
  then Ok (map (fun o => match o with Some c => c | None => 0 end) sc)
  else Raise UnicodeDecodeError.

(** [bytes.decode("utf-8", errors="replace")]: every error becomes one
    U+FFFD. *)
Definition decode_utf8_replace (bs : list byte) : pystr :=
  map (fun o => match o with Some c => c | None => REPLACEMENT_CHARACTER end)
      (utf8_scan (map byte_val bs)).

(** [struct.unpack] for the four formats the reader uses.  A buffer whose
    size differs from the format's raises [struct.error]. *)
Definition unpack_uint (size : nat) (bs : list byte) : result Z :=
  if Nat.eqb (length bs) size then Ok (le_decode bs) else Raise StructError.

Definition unpack_I : list byte -> result Z := unpack_uint 4.   (* "<I" *)
Definition unpack_Q : list byte -> result Z := unpack_uint 8.   (* "<Q" *)

Definition unpack_f (bs : list byte) : result spec_float :=     (* "<f" *)
  if Nat.eqb (length bs) 4 then Ok (binary32_of_bits (le_decode bs))
  else Raise StructError.

Definition unpack_bool (bs : list byte) : result bool :=        (* "?" *)
  if Nat.eqb (length bs) 1 then Ok (negb (le_decode bs =? 0))
  else Raise StructError.

(* ================================================================== *)
(** ** Console lines *)

(** A decoded metadata value, as the reader prints it. *)
Inductive value : Type :=
| VStr (s : pystr)
| VInt (n : Z)
| VFloat (x : spec_float)
| VBool (b : bool).

(** A numpy array of the library reader: element width and elements. *)
Record ndarray : Type := { itemsize : nat; items : list Z }.

(** One constructor per [print] call of the script. *)
Inductive line : Type :=
  (* inspect_gguf_raw *)
| BadMagic                                    (* Not a GGUF file (bad magic) *)
| RawReadMode                                 (* [RAW READ MODE] *)
| GGUFVersion (version : Z)
| TensorCount (tensor_count : Z)
| KVCount (kv_count : Z)
| MetadataHeading                             (* --- Metadata --- *)
| Pair (key : pystr) (v : value)              (* {key}: {value} *)
| ArrayStop (key : pystr) (arr_len arr_type : Z)
| UnknownTypeStop (key : pystr) (val_type : Z)
| KVError (e : exn)                           (* Error parsing KV pair: {e} *)
  (* inspect_gguf *)
| Inspecting (model_path : string)
| UnknownQuantization
| AttemptingPatch
| FallingBack
| CouldNotPatch (patch_e : exn)
| ReadError (e : exn)                         (* Error reading GGUF file: {e} *)
| ArchitectureHeading
| Architecture (arch : pystr)
| Layers (block_count : Z)
| NoLayerCount
| MetadataFirst20
| Field (name : pystr) (last_part : ndarray)
| TensorHeading
| Tensor (name : pystr) (shape : list Z) (tensor_type : Z)
  (* __main__ *)
| UsingDefault (target_path : string)
| FileNotFound (target_path : string)
| PleaseProvide.

(* ================================================================== *)
(** ** The effect monad

    A computation runs on a state [S], either returns or raises, and
    prints lines.  What was printed before an exception stays printed,
    and the state is not rolled back. *)

Definition M (S A : Type) : Type := S -> result A * S * list line.

Definition ret {S A} (a : A) : M S A := fun s => (Ok a, s, []).

Definition bind {S A B} (m : M S A) (k : A -> M S B) : M S B :=
  fun s =>
    match m s with
    | (Ok a, s1, o1) =>
      match k a s1 with
      | (r, s2, o2) => (r, s2, o1 ++ o2)
      end
    | (Raise e, s1, o1) => (Raise e, s1, o1)
    end.

(** [try: m  except Exception as e: h e] *)
Definition try_except {S A} (m : M S A) (h : exn -> M S A) : M S A :=
  fun s =>
    match m s with
    | (Ok a, s1, o1) => (Ok a, s1, o1)
    | (Raise e, s1, o1) =>
      match h e s1 with
      | (r, s2, o2) => (r, s2, o1 ++ o2)
      end
    end.

Definition lift {S A} (r : result A) : M S A := fun s => (r, s, []).

Definition print {S} (l : line) : M S unit := fun s => (Ok tt, s, [l]).

Declare Scope monad_scope.
Delimit Scope monad_scope with monad.
Notation "x <- m ;; k" := (bind m (fun x => k))
  (at level 61, m at next level, right associativity) : monad_scope.
Notation "m ;; k" := (bind m (fun _ => k))
  (at level 61, right associativity) : monad_scope.
Local Open Scope monad_scope.

(* ================================================================== *)
(** ** The open file *)

(** A binary file object: the bytes not read yet and [f.tell()]. *)
Record file : Type := { unread : list byte; position : Z }.

Definition PY_SSIZE_T_MAX : Z := 2 ^ 63 - 1.

(** [io.DEFAULT_BUFFER_SIZE]: a buffer of at most this size is always
    granted. *)
Definition DEFAULT_BUFFER_SIZE : Z := 8192.

(** The longest [bytes] object: the index range less the 33 bytes of the
    object header.  A longer one is refused with [OverflowError] ("byte
    string is too large"). *)
Definition BYTES_MAX : Z := PY_SSIZE_T_MAX - 33.

(** The exception of a read whose buffer is refused. *)
Definition refusal (n : Z) : exn :=
  if BYTES_MAX <? n then OverflowError else MemoryError.

(** The allocation limit of the sample runs: 4 GiB. *)
Definition SAMPLE_ALLOC_MAX : Z := 2 ^ 32.

Section Interpreter.

(** The largest buffer the allocator grants to a read that the file cannot
    fill.  It depends on the machine and its load. *)
Variable alloc_max : Z.

(** Whether a read of [n] bytes that the file cannot fill gets its
    buffer. *)
Definition allocatable (n : Z) : bool :=
  (n <=? DEFAULT_BUFFER_SIZE) || ((n <=? BYTES_MAX) && (n <=? alloc_max)).

(** [f.read(n)] for [n >= 0].  The size must fit an index, and the buffer
    of [n] bytes is allocated first; then at most [n] bytes are returned,
    fewer at the end of the file, none past it. *)
Definition read (n : Z) : M file (list byte) :=
  fun f =>
    let granted :=
      (Ok (take n (unread f)),
       {| unread := drop n (unread f);
          position := position f + len (take n (unread f)) |}, []) in
    if PY_SSIZE_T_MAX <? n then (Raise OverflowError, f, [])
    else if n <=? len (unread f) then granted
    else if n <=? DEFAULT_BUFFER_SIZE then granted
    else if BYTES_MAX <? n then (Raise OverflowError, f, [])
    else if alloc_max <? n then (Raise MemoryError, f, [])
    else granted.

Fixpoint bytes_eqb (a b : list byte) : bool :=
  match a, b with
  | [], [] => true
  | x :: a', y :: b' => Byte.eqb x y && bytes_eqb a' b'
  | _, _ => false
  end.

(** b"GGUF" *)
Definition GGUF_MAGIC : list byte := [x47; x47; x55; x46].

(* ================================================================== *)
(** ** inspect_gguf_raw *)

Inductive ctl : Type := Continue | Break.

(** The dispatch on [val_type] (source lines 123-147).  [Some value] falls
    through to the final [print]; [None] is the [break] of the array and
    unknown-type branches, taken after their own [print]. *)
Definition read_value (key : pystr) (val_type : Z) : M file (option value) :=
  if val_type =? 8 then
    bs <- read 8 ;;
    s_len <- lift (unpack_Q bs) ;;
    vb <- read s_len ;;
    ret (Some (VStr (decode_utf8_replace vb)))
  else if (val_type =? 4) || (val_type =? 5) then
    bs <- read 4 ;;
    value <- lift (unpack_I bs) ;;
    ret (Some (VInt value))
  else if (val_type =? 10) || (val_type =? 11) then
    bs <- read 8 ;;
    value <- lift (unpack_Q bs) ;;
    ret (Some (VInt value))
  else if val_type =? 6 then
    bs <- read 4 ;;
    value <- lift (unpack_f bs) ;;
    ret (Some (VFloat value))
  else if val_type =? 7 then
    bs <- read 1 ;;
    value <- lift (unpack_bool bs) ;;
    ret (Some (VBool value))
  else if val_type =? 9 then
    bs <- read 4 ;;
    arr_type <- lift (unpack_I bs) ;;
    bs <- read 8 ;;
    arr_len <- lift (unpack_Q bs) ;;
    print (ArrayStop key arr_len arr_type) ;;
    ret None
  else
    print (UnknownTypeStop key val_type) ;;
    ret None.

(** The body of the [try] (source lines 101-149). *)
Definition kv_entry : M file ctl :=
  bs <- read 8 ;;
  key_len <- lift (unpack_Q bs) ;;
  kb <- read key_len ;;
  key <- lift (decode_utf8 kb) ;;
  bs <- read 4 ;;
  val_type <- lift (unpack_I bs) ;;
  v <- read_value key val_type ;;
  match v with
  | Some value => print (Pair key value) ;; ret Continue
  | None => ret Break
  end.

(** One iteration: the [try] and its [except Exception] handler. *)
Definition kv_iteration : M file ctl :=
  try_except kv_entry (fun e => print (KVError e) ;; ret Break).

(** [for _ in range(n)] with [break]. *)
Fixpoint kv_loop (n : nat) : M file unit :=
  match n with
  | O => ret tt
  | S k =>
    c <- kv_iteration ;;
    match c with
    | Continue => kv_loop k
    | Break => ret tt
    end
  end.

(** The body of the [with] block, on the file just opened. *)
Definition inspect_gguf_raw_f : M file unit :=
  magic <- read 4 ;;
  if negb (bytes_eqb magic GGUF_MAGIC) then
    print BadMagic
  else
    bs <- read 4 ;;
    version <- lift (unpack_I bs) ;;
    bs <- read 8 ;;
    tensor_count <- lift (unpack_Q bs) ;;
    bs <- read 8 ;;
    kv_count <- lift (unpack_Q bs) ;;
    print RawReadMode ;;
    print (GGUFVersion version) ;;
    print (TensorCount tensor_count) ;;
    print (KVCount kv_count) ;;
    print MetadataHeading ;;
    kv_loop (Z.to_nat kv_count).

(* ================================================================== *)
(** ** The environment: file system and the gguf library *)

(** What [gguf.GGUFReader] exposes and the script uses. *)
Record ReaderField : Type := { name : pystr; parts : list ndarray }.

Record ReaderTensor : Type :=
  { tensor_name : pystr; shape : list Z; tensor_type : Z }.

(** [fields] is an ordered dictionary from field name to field. *)
Record Reader : Type :=
  { fields : list (pystr * ReaderField); tensors : list ReaderTensor }.

Record env : Type := {
  path_exists : string -> bool;              (* os.path.exists *)
  open_rb : string -> result (list byte);    (* open(path, "rb") *)
  GGUFReader : string -> result Reader       (* gguf.GGUFReader(path) *)
}.

(** The calls that reach the file system, in order. *)
Inductive access : Type :=
| StatPath (path : string)      (* os.path.exists(path) *)
| LoadReader (path : string)    (* gguf.GGUFReader(path) *)
| OpenFile (path : string).     (* open(path, "rb") *)

Definition touch (a : access) : M (list access) unit :=
  fun log => (Ok tt, log ++ [a], []).

(** [with open(path, "rb") as f: ...]: the file is closed on every exit,
    an exception of the body propagates. *)
Definition inspect_gguf_raw (E : env) (path : string) : M (list access) unit :=
  touch (OpenFile path) ;;
  data <- lift (open_rb E path) ;;
  fun log =>
    match inspect_gguf_raw_f {| unread := data; position := 0 |} with
    | (r, _, o) => (r, log, o)
    end.

(* ================================================================== *)
(** ** inspect_gguf *)

Fixpoint pystr_eqb (a b : pystr) : bool :=
  match a, b with
  | [], [] => true
  | x :: a', y :: b' => (x =? y) && pystr_eqb a' b'
  | _, _ => false
  end.

(** [reader.get_field(key)], that is [self.fields.get(key, None)]. *)
Fixpoint dict_get (fs : list (pystr * ReaderField)) (key : pystr)
  : option ReaderField :=
  match fs with
  | [] => None
  | (k, v) :: rest => if pystr_eqb k key then Some v else dict_get rest key
  end.

Definition get_field (reader : Reader) (key : pystr) : option ReaderField :=
  dict_get (fields reader) key.

(** [seq[-1]] *)
Definition last_item {A} (l : list A) : result A :=
  match rev l with
  | [] => Raise IndexError
  | x :: _ => Ok x
  end.

(** [seq[0]] *)
Definition first_item {A} (l : list A) : result A :=
  match l with
  | [] => Raise IndexError
  | x :: _ => Ok x
  end.

(** [a.tobytes()] of a little-endian array. *)
Definition tobytes (a : ndarray) : list byte :=
  flat_map (le_encode (itemsize a)) (items a).

(** [x.parts] where [x] may be [None]. *)
Definition parts_of (x : option ReaderField) : result (list ndarray) :=
  match x with
  | None => Raise AttributeError
  | Some fld => Ok (parts fld)
  end.

(** [reader.get_field('general.architecture').parts[-1].tobytes().decode('utf-8')] *)
Definition architecture_of {S} (reader : Reader) : M S pystr :=
  ps <- lift (parts_of (get_field reader (pystr_of_string "general.architecture"))) ;;
  a <- lift (last_item ps) ;;
  lift (decode_utf8 (tobytes a)).

(** ["<needle>" in hay] *)
Fixpoint contains (needle hay : string) : bool :=
  match hay with
  | EmptyString => String.prefix needle hay
  | String _ t => String.prefix needle hay || contains needle t
  end.

(** The metadata listing (source lines 66-69). *)
Fixpoint list_fields {S} (i : Z) (fs : list (pystr * ReaderField)) : M S unit :=
  match fs with
  | [] => ret tt
  | (_, field) :: rest =>
    if 20 <=? i then ret tt
    else
      p <- lift (last_item (parts field)) ;;
      print (Field (name field) p) ;;
      list_fields (i + 1) rest
  end.

(** The tensor listing (source lines 72-75). *)
Fixpoint list_tensors {S} (i : Z) (ts : list ReaderTensor) : M S unit :=
  match ts with
  | [] => ret tt
  | tensor :: rest =>
    if 10 <=? i then ret tt
    else
      print (Tensor (tensor_name tensor) (shape tensor) (tensor_type tensor)) ;;
      list_tensors (i + 1) rest
  end.

(** Source lines 54-75: the report once the library reader is built. *)
Definition report {S} (reader : Reader) : M S unit :=
  print ArchitectureHeading ;;
  arch <- architecture_of reader ;;
  print (Architecture arch) ;;
  try_except
    (arch' <- architecture_of reader ;;
     let block_count :=
       get_field reader (arch' ++ pystr_of_string ".block_count") in
     match block_count with
     | Some fld =>
       p <- lift (last_item (parts fld)) ;;
       n <- lift (first_item (items p)) ;;
       print (Layers n)
     | None => ret tt
     end)
    (fun _ => print NoLayerCount) ;;
  print MetadataFirst20 ;;
  list_fields 0 (fields reader) ;;
  print TensorHeading ;;
  list_tensors 0 (tensors reader).

(** Source lines 19-52: build the reader; [None] stands for the [return]
    of the handlers. *)
Definition load_reader (E : env) (model_path : string)
  : M (list access) (option Reader) :=
  try_except
    (touch (LoadReader model_path) ;;
     reader <- lift (GGUFReader E model_path) ;;
     ret (Some reader))
    (fun e =>
       match e with
       | ValueError msg =>
         if contains "not a valid GGMLQuantizationType" msg then
           print UnknownQuantization ;;
           print AttemptingPatch ;;
           try_except
             (print FallingBack ;;
              inspect_gguf_raw E model_path ;;
              ret None)
             (fun patch_e => print (CouldNotPatch patch_e) ;; ret None)
         else
           print (ReadError e) ;; ret None
       | _ => print (ReadError e) ;; ret None
       end).

Definition inspect_gguf (E : env) (model_path : string) : M (list access) unit :=
  print (Inspecting model_path) ;;
  r <- load_reader E model_path ;;
  match r with
  | None => ret tt
  | Some reader => report reader
  end.

(* ================================================================== *)
(** ** The entry point *)

Definition default_path : string :=
  "C:\Users\BassemMonla\.lmstudio\models\lmstudio-community\gpt-oss-20b-GGUF\gpt-oss-20b-MXFP4.gguf".

(** The [__main__] block, on [sys.argv]. *)
Definition main (E : env) (argv : list string) : M (list access) unit :=
  target_path <-
    (if 1 <? len argv then ret (nth 1 argv EmptyString)
     else
       print (UsingDefault default_path) ;;
       ret default_path) ;;
  touch (StatPath target_path) ;;
  if path_exists E target_path then
    inspect_gguf E target_path
  else
    print (FileNotFound target_path) ;;
    print PleaseProvide.

(* ================================================================== *)
(** ** The documented file layout

    The definitions of this part follow the format description, not the
    reader: they build the streams the statements below quantify over. *)

(** Fixed header: magic, version (u32), tensor count (u64), key/value
    count (u64), little-endian throughout. *)
Definition header (version tensor_count kv_count : Z) : list byte :=
  GGUF_MAGIC ++ le_encode 4 version ++ le_encode 8 tensor_count
             ++ le_encode 8 kv_count.

(** One key/value entry as stored: the key bytes, the type tag and the bytes
    of the value. *)
Record entry : Type :=
  { e_key : list byte; e_type : Z; e_payload : list byte }.

(** Length-prefixed key, 4-byte type tag, value. *)
Definition layout (e : entry) : list byte :=
  le_encode 8 (len (e_key e)) ++ e_key e ++ le_encode 4 (e_type e)
            ++ e_payload e.

(** A length-prefixed string. *)
Definition string_field (body : list byte) : list byte :=
  le_encode 8 (len body) ++ body.

Definition is_scalar_type (t : Z) : bool :=
  (t =? 4) || (t =? 5) || (t =? 6) || (t =? 7) || (t =? 8) || (t =? 10)
  || (t =? 11).

Definition is_supported_type (t : Z) : bool := is_scalar_type t || (t =? 9).

(** The value bytes have the size the type tag declares. *)
Definition payload_ok (t : Z) (p : list byte) : bool :=
  if t =? 8 then
    (8 <=? len p) && (le_decode (take 8 p) =? len p - 8)
    && (len p - 8 <=? PY_SSIZE_T_MAX)
  else if (t =? 4) || (t =? 5) || (t =? 6) then len p =? 4
  else if t =? 7 then len p =? 1
  else if (t =? 10) || (t =? 11) then len p =? 8
  else false.

Definition key_ok (k : list byte) : bool :=
  valid_utf8 k && (len k <=? PY_SSIZE_T_MAX).

(** A well-formed entry of scalar type. *)
Definition scalar_entry (e : entry) : bool :=
  key_ok (e_key e) && (0 <=? e_type e) && (e_type e <? 2 ^ 32)
  && payload_ok (e_type e) (e_payload e).

(** Two's complement reading of a [bits]-bit pattern. *)
Definition signed (bits : Z) (x : Z) : Z :=
  if x <? 2 ^ (bits - 1) then x else x - 2 ^ bits.

(** The value an entry holds, by its declared type: tags 4 and 10 are
    unsigned, 5 and 11 are signed, 6 is a binary32 float, 7 a boolean
    (nonzero is true), 8 a UTF-8 string. *)
Definition declared_value (t : Z) (p : list byte) : value :=
  if t =? 8 then VStr (decode_utf8_replace (drop 8 p))
  else if t =? 5 then VInt (signed 32 (le_decode p))
  else if t =? 11 then VInt (signed 64 (le_decode p))
  else if t =? 6 then VFloat (binary32_of_bits (le_decode p))
  else if t =? 7 then VBool (negb (le_decode p =? 0))
  else VInt (le_decode p).

(** What the reader shows for a scalar entry: the declared value, except
    that the integers of tags 5 and 11 are read without their sign. *)
Definition shown_value (t : Z) (p : list byte) : value :=
  if (t =? 5) || (t =? 11) then VInt (le_decode p)
  else declared_value t p.

Definition key_of (e : entry) : pystr :=
  decode_utf8_replace (e_key e).

Definition shown_pair (e : entry) : line :=
  Pair (key_of e) (shown_value (e_type e) (e_payload e)).

Definition declared_pair (e : entry) : line :=
  Pair (key_of e) (declared_value (e_type e) (e_payload e)).

(** The lines printed between the header and the first entry. *)
Definition header_lines (version tensor_count kv_count : Z) : list line :=
  [RawReadMode; GGUFVersion version; TensorCount tensor_count;
   KVCount kv_count; MetadataHeading].

(** *** Typed values and their encoding *)

Inductive scalar : Type :=
| U32 (n : Z)
| I32 (n : Z)
| F32 (x : spec_float)
| Bool (b : bool)
| Str (s : pystr)
| U64 (n : Z)
| I64 (n : Z).

Definition type_tag (v : scalar) : Z :=
  match v with
  | U32 _ => 4 | I32 _ => 5 | F32 _ => 6 | Bool _ => 7 | Str _ => 8
  | U64 _ => 10 | I64 _ => 11
  end.

(** A Unicode scalar value: a code point that is not a surrogate. *)
Definition is_scalar_value (c : Z) : bool :=
  (0 <=? c) && (c <=? 0x10FFFF) && negb ((0xD800 <=? c) && (c <=? 0xDFFF)).

Definition utf8_encode_char (c : Z) : list Z :=
  if c <? 0x80 then [c]
  else if c <? 0x800 then [0xC0 + c / 64; 0x80 + c mod 64]
  else if c <? 0x10000 then
    [0xE0 + c / 4096; 0x80 + (c / 64) mod 64; 0x80 + c mod 64]
  else
    [0xF0 + c / 262144; 0x80 + (c / 4096) mod 64; 0x80 + (c / 64) mod 64;
     0x80 + c mod 64].

(** [s.encode("utf-8")] *)
Definition utf8_encode (s : pystr) : list byte :=
  map byte_of_Z (flat_map utf8_encode_char s).

(** The 32-bit pattern of a binary32 number; the quiet NaN for NaN. *)
Definition bits_of_binary32 (x : spec_float) : Z :=
  let sign (s : bool) := if s then 2 ^ 31 else 0 in
  match x with
  | S754_zero s => sign s
  | S754_infinity s => sign s + 255 * 2 ^ 23
  | S754_nan => 0x7FC00000
  | S754_finite s m e =>
    if Zpos m <? 2 ^ 23 then sign s + Zpos m
    else sign s + (e + 150) * 2 ^ 23 + (Zpos m - 2 ^ 23)
  end.

(** The values each type can hold. *)
Definition in_range (v : scalar) : bool :=
  match v with
  | U32 n => (0 <=? n) && (n <? 2 ^ 32)
  | I32 n => (- 2 ^ 31 <=? n) && (n <? 2 ^ 31)
  | F32 x => valid_binary 24 128 x
  | Bool _ => true
  | Str s => forallb is_scalar_value s
             && (len (utf8_encode s) <=? PY_SSIZE_T_MAX)
  | U64 n => (0 <=? n) && (n <? 2 ^ 64)
  | I64 n => (- 2 ^ 63 <=? n) && (n <? 2 ^ 63)
  end.

Definition encode_value (v : scalar) : list byte :=
  match v with
  | U32 n | I32 n => le_encode 4 n
  | F32 x => le_encode 4 (bits_of_binary32 x)
  | Bool b => [if b then x01 else x00]
  | Str s => string_field (utf8_encode s)
  | U64 n | I64 n => le_encode 8 n
  end.

(** The entry that stores [v] under [key]. *)
Definition encode_entry (key : pystr) (v : scalar) : entry :=
  {| e_key := utf8_encode key; e_type := type_tag v;
     e_payload := encode_value v |}.

(** The Python value equal to [v]. *)
Definition original (v : scalar) : value :=
  match v with
  | U32 n | I32 n | U64 n | I64 n => VInt n
  | F32 x => VFloat x
  | Bool b => VBool b
  | Str s => VStr s
  end.

Definition start (data : list byte) : file :=
  {| unread := data; position := 0 |}.

(** A signed integer that is not negative; every value of another type. *)
Definition keeps_sign (v : scalar) : bool :=
  match v with
  | I32 n | I64 n => 0 <=? n
  | _ => true
  end.

(** The same on a stored entry: the sign bit of a tag 5 or tag 11 value is
    clear. *)
Definition sign_bit_clear (e : entry) : bool :=
  if e_type e =? 5 then le_decode (e_payload e) <? 2 ^ 31
  else if e_type e =? 11 then le_decode (e_payload e) <? 2 ^ 63
  else true.

(** *** A file the library reads

    A well-formed GGUF file without a [general.architecture] key: the
    library builds its reader, whose fields are the three header
    pseudo-fields, and the file has no tensor. *)
Definition u32_array (n : Z) : ndarray := {| itemsize := 4; items := [n] |}.

Definition u64_array (n : Z) : ndarray := {| itemsize := 8; items := [n] |}.

Definition header_field (nm : string) (a : ndarray)
  : pystr * ReaderField :=
  (pystr_of_string nm, {| name := pystr_of_string nm; parts := [a] |}).

Definition bare_reader : Reader :=
  {| fields := [ header_field "GGUF.version" (u32_array 3);
                 header_field "GGUF.tensor_count" (u64_array 0);
                 header_field "GGUF.kv_count" (u64_array 0) ];
     tensors := [] |}.

Definition bare_file : list byte := header 3 0 0.

(** An environment whose only file is [bare_file], at [bare.gguf]. *)
Definition bare_env : env :=
  {| path_exists := fun p => String.eqb p "bare.gguf";
     open_rb := fun p =>
       if String.eqb p "bare.gguf" then Ok bare_file
       else Raise (OSError "No such file or directory");
     GGUFReader := fun p =>
       if String.eqb p "bare.gguf" then Ok bare_reader
       else Raise (OSError "No such file or directory") |}.

(** *** The listings of the report *)

(** A field of the reader that has at least one part. *)
Definition has_parts (kv : pystr * ReaderField) : bool :=
  match parts (snd kv) with
  | [] => false
  | _ :: _ => true
  end.

(** The line of the metadata listing for a field: its name and its last
    part. *)
Definition field_line (kv : pystr * ReaderField) : line :=
  Field (name (snd kv))
        (last (parts (snd kv)) {| itemsize := 0; items := [] |}).

(** The line of the tensor listing. *)
Definition tensor_line (t : ReaderTensor) : line :=
  Tensor (tensor_name t) (shape t) (tensor_type t).

(** The types whose value has a fixed size, and that size in bytes. *)
Definition value_size (t : Z) : Z :=
  if (t =? 4) || (t =? 5) || (t =? 6) then 4
  else if t =? 7 then 1
  else if (t =? 10) || (t =? 11) then 8
  else 0.

(** The substring the handler of [inspect_gguf] looks for. *)
Definition quantization_message : string :=
  "not a valid GGMLQuantizationType".

(** Whether the handler takes the raw fallback for this exception. *)
Definition takes_fallback (e : exn) : bool :=
  match e with
  | ValueError msg => contains quantization_message msg
  | _ => false
  end.

(** *** Sample environments

    An environment in which every path exists, the library reader gives
    [r] and [open] gives [f]. *)
Definition library_env (r : result Reader) (f : result (list byte)) : env :=
  {| path_exists := fun _ => true;
     open_rb := fun _ => f;
     GGUFReader := fun _ => r |}.

(** A string field as the library stores it: the last part holds the bytes
    of the string. *)
Definition string_reader_field (nm : string) (bytes : list Z)
  : pystr * ReaderField :=
  (pystr_of_string nm,
   {| name := pystr_of_string nm;
      parts := [ u64_array (len bytes); {| itemsize := 1; items := bytes |} ] |}).

(** A reader with an architecture string, a block count stored under
    [ll.block_count] and one tensor. *)
Definition sample_reader (arch : list Z) (block_count : list Z) : Reader :=
  {| fields :=
       [ string_reader_field "general.architecture" arch;
         (pystr_of_string "ll.block_count",
          {| name := pystr_of_string "ll.block_count";
             parts := [ {| itemsize := 4; items := block_count |} ] |}) ];
     tensors :=
       [ {| tensor_name := pystr_of_string "token_embd.weight";
            shape := [4096; 32000]; tensor_type := 39 |} ] |}.

(* ================================================================== *)
(** * Properties *)

(** ** Bytes *)

Lemma byte_val_range (b : byte) : 0 <= byte_val b < 256.
Proof.
  unfold byte_val. pose proof (Byte.to_N_bounded b). lia.
Qed.

Lemma byte_val_of_Z (z : Z) : byte_val (byte_of_Z z) = z mod 256.
Proof.
  unfold byte_val, byte_of_Z.
  pose proof (Z.mod_pos_bound z 256 ltac:(lia)) as Hm.
  destruct (Byte.of_N (Z.to_N (z mod 256))) as [b|] eqn:E.
  - apply Byte.to_of_N in E. rewrite E. lia.
  - apply Byte.of_N_None_iff in E. lia.
Qed.

Lemma byte_val_of_Z_small (z : Z) : 0 <= z < 256 -> byte_val (byte_of_Z z) = z.
Proof. intros H. rewrite byte_val_of_Z. apply Z.mod_small. exact H. Qed.

Lemma byte_val_inj (a b : byte) : byte_val a = byte_val b -> a = b.
Proof.
  unfold byte_val. intros H. apply N2Z.inj in H.
  pose proof (Byte.of_to_N a) as Ha. rewrite H, Byte.of_to_N in Ha.
  congruence.
Qed.

Lemma byte_of_Z_val (b : byte) : byte_of_Z (byte_val b) = b.
Proof.
  apply byte_val_inj. apply byte_val_of_Z_small. apply byte_val_range.
Qed.

Lemma bytes_eqb_eq (a b : list byte) : bytes_eqb a b = true <-> a = b.
Proof.
  revert b. induction a as [|x a IH]; intros [|y b]; simpl;
    try (split; [discriminate | congruence]); try tauto.
  rewrite andb_true_iff, IH. split.
  - intros [H1 H2]. apply Byte.byte_dec_bl in H1. congruence.
  - intros H. injection H as -> ->. split; [apply Byte.byte_dec_lb|]; reflexivity.
Qed.

(** ** Lengths and slices *)

Lemma len_nonneg {A} (l : list A) : 0 <= len l.
Proof. unfold len. lia. Qed.

Lemma len_app {A} (a b : list A) : len (a ++ b) = len a + len b.
Proof. unfold len. rewrite length_app. lia. Qed.

Lemma len_cons {A} (x : A) (l : list A) : len (x :: l) = 1 + len l.
Proof. unfold len. simpl length. lia. Qed.

Lemma take_app_exact {A} (l r : list A) : take (len l) (l ++ r) = l.
Proof.
  induction l as [|x l IH].
  - destruct r; reflexivity.
  - rewrite len_cons. cbn [app take]. pose proof (len_nonneg l).
    destruct (Z.leb_spec (1 + len l) 0); [lia|].
    replace (1 + len l - 1) with (len l) by lia. now rewrite IH.
Qed.

Lemma drop_app_exact {A} (l r : list A) : drop (len l) (l ++ r) = r.
Proof.
  induction l as [|x l IH].
  - destruct r; reflexivity.
  - rewrite len_cons. cbn [app drop]. pose proof (len_nonneg l).
    destruct (Z.leb_spec (1 + len l) 0); [lia|].
    replace (1 + len l - 1) with (len l) by lia. exact IH.
Qed.

Lemma take_all {A} (n : Z) (l : list A) : len l <= n -> take n l = l.
Proof.
  revert n. induction l as [|x l IH]; intros n H; [reflexivity|].
  rewrite len_cons in H. cbn [take]. pose proof (len_nonneg l).
  destruct (Z.leb_spec n 0); [lia|]. rewrite IH by lia. reflexivity.
Qed.

Lemma drop_all {A} (n : Z) (l : list A) : len l <= n -> drop n l = [].
Proof.
  revert n. induction l as [|x l IH]; intros n H; [reflexivity|].
  rewrite len_cons in H. cbn [drop]. pose proof (len_nonneg l).
  destruct (Z.leb_spec n 0); [lia|]. apply IH. lia.
Qed.

Lemma len_take_le {A} (n : Z) (l : list A) : len (take n l) <= len l.
Proof.
  revert n. induction l as [|x l IH]; intros n; cbn [take]; [lia|].
  pose proof (len_nonneg l).
  destruct (n <=? 0).
  - rewrite len_cons. change (len (@nil A)) with 0. lia.
  - rewrite !len_cons. specialize (IH (n - 1)). lia.
Qed.

Lemma len_take_bound {A} (n : Z) (l : list A) : 0 <= n -> len (take n l) <= n.
Proof.
  revert n. induction l as [|x l IH]; intros n Hn; cbn [take].
  - change (len (@nil A)) with 0. lia.
  - destruct (Z.leb_spec n 0).
    + change (len (@nil A)) with 0. lia.
    + rewrite len_cons. specialize (IH (n - 1)). lia.
Qed.

(** ** Little-endian integers *)

Lemma length_le_encode (n : nat) (z : Z) : length (le_encode n z) = n.
Proof. revert z. induction n; intros z; simpl; [|rewrite IHn]; reflexivity. Qed.

Lemma len_le_encode (n : nat) (z : Z) : len (le_encode n z) = Z.of_nat n.
Proof. unfold len. now rewrite length_le_encode. Qed.

Lemma le_decode_encode (n : nat) (z : Z) :
  0 <= z < 256 ^ Z.of_nat n -> le_decode (le_encode n z) = z.
Proof.
  revert z. induction n as [|n IH]; intros z H.
  - simpl in *. lia.
  - cbn [le_encode le_decode]. rewrite byte_val_of_Z.
    rewrite Nat2Z.inj_succ, Z.pow_succ_r in H by lia.
    rewrite IH.
    + pose proof (Z.div_mod z 256 ltac:(lia)). lia.
    + split; [apply Z.div_pos; lia|].
      apply Z.div_lt_upper_bound; lia.
Qed.

Lemma le_decode_range (bs : list byte) : 0 <= le_decode bs < 256 ^ len bs.
Proof.
  induction bs as [|b bs IH]; cbn [le_decode].
  - change (len (@nil byte)) with 0. lia.
  - rewrite len_cons. pose proof (byte_val_range b). pose proof (len_nonneg bs).
    replace (1 + len bs) with (Z.succ (len bs)) by lia.
    rewrite Z.pow_succ_r by lia. lia.
Qed.

Lemma le_encode_decode (bs : list byte) : le_encode (length bs) (le_decode bs) = bs.
Proof.
  induction bs as [|b bs IH]; [reflexivity|].
  cbn [length le_encode le_decode]. pose proof (byte_val_range b).
  f_equal.
  - apply byte_val_inj. rewrite byte_val_of_Z.
    Z.to_euclidean_division_equations. lia.
  - replace ((byte_val b + 256 * le_decode bs) / 256) with (le_decode bs);
      [exact IH|].
    Z.to_euclidean_division_equations. lia.
Qed.

Lemma unpack_uint_encode (n : nat) (z : Z) :
  0 <= z < 256 ^ Z.of_nat n -> unpack_uint n (le_encode n z) = Ok z.
Proof.
  intros H. unfold unpack_uint.
  rewrite length_le_encode, Nat.eqb_refl, le_decode_encode by exact H.
  reflexivity.
Qed.

Lemma unpack_uint_short (n : nat) (bs : list byte) :
  length bs <> n -> unpack_uint n bs = Raise StructError.
Proof.
  intros H. unfold unpack_uint.
  destruct (Nat.eqb_spec (length bs) n); [contradiction|reflexivity].
Qed.

(** ** Running monadic code *)

Lemma bind_silent {S A B} (m : M S A) (k : A -> M S B) s a s1 :
  m s = (Ok a, s1, []) -> bind m k s = k a s1.
Proof.
  intros H. unfold bind. rewrite H.
  destruct (k a s1) as [[r s2] o2]. reflexivity.
Qed.

Lemma bind_printed {S A B} (m : M S A) (k : A -> M S B) s a s1 o1 r s2 o2 :
  m s = (Ok a, s1, o1) -> k a s1 = (r, s2, o2) ->
  bind m k s = (r, s2, o1 ++ o2).
Proof. intros H1 H2. unfold bind. rewrite H1, H2. reflexivity. Qed.

Lemma bind_raise {S A B} (m : M S A) (k : A -> M S B) s e s1 o1 :
  m s = (Raise e, s1, o1) -> bind m k s = (Raise e, s1, o1).
Proof. intros H. unfold bind. rewrite H. reflexivity. Qed.

Lemma lift_then {S A B} (a : A) (k : A -> M S B) s :
  bind (lift (Ok a)) k s = k a s.
Proof. apply bind_silent. reflexivity. Qed.

Lemma ret_then {S A B} (a : A) (k : A -> M S B) s :
  bind (ret a) k s = k a s.
Proof. apply bind_silent. reflexivity. Qed.

Lemma lift_raise_then {S A B} (e : exn) (k : A -> M S B) s :
  bind (lift (Raise e)) k s = (Raise e, s, []).
Proof. reflexivity. Qed.

Lemma read_bytes (bs r : list byte) (p : Z) :
  len bs <= PY_SSIZE_T_MAX ->
  read (len bs) {| unread := bs ++ r; position := p |}
  = (Ok bs, {| unread := r; position := p + len bs |}, []).
Proof.
  intros H. unfold read. cbn [unread position]. pose proof (len_nonneg r).
  destruct (Z.ltb_spec PY_SSIZE_T_MAX (len bs)); [lia|].
  destruct (Z.leb_spec (len bs) (len (bs ++ r))); [|rewrite len_app in *; lia].
  rewrite take_app_exact, drop_app_exact. reflexivity.
Qed.

Lemma read_then {B} (n : Z) (bs r : list byte) (p : Z) (k : list byte -> M file B) :
  len bs = n -> n <= PY_SSIZE_T_MAX ->
  bind (read n) k {| unread := bs ++ r; position := p |}
  = k bs {| unread := r; position := p + n |}.
Proof.
  intros <- H. apply bind_silent. apply read_bytes. exact H.
Qed.

Ltac small_read := unfold DEFAULT_BUFFER_SIZE; lia.

Lemma allocatable_inv (n : Z) :
  allocatable n = true ->
  n <= DEFAULT_BUFFER_SIZE \/ (n <= BYTES_MAX /\ n <= alloc_max).
Proof.
  unfold allocatable. rewrite orb_true_iff, andb_true_iff, !Z.leb_le. tauto.
Qed.

(** A read of a few bytes is always served. *)
Lemma read_any (n : Z) (f : file) :
  n <= DEFAULT_BUFFER_SIZE ->
  read n f = (Ok (take n (unread f)),
              {| unread := drop n (unread f);
                 position := position f + len (take n (unread f)) |}, []).
Proof.
  intros H. unfold read. cbv zeta.
  destruct (Z.ltb_spec PY_SSIZE_T_MAX n);
    [unfold PY_SSIZE_T_MAX, DEFAULT_BUFFER_SIZE in *; lia|].
  destruct (n <=? len (unread f)); [reflexivity|].
  destruct (Z.leb_spec n DEFAULT_BUFFER_SIZE); [reflexivity|lia].
Qed.

(** Every read either raises, leaving the file where it is, or returns
    the slice. *)
Lemma read_cases (n : Z) (f : file) :
  (exists e, read n f = (Raise e, f, []))
  \/ read n f = (Ok (take n (unread f)),
                 {| unread := drop n (unread f);
                    position := position f + len (take n (unread f)) |}, []).
Proof.
  unfold read. cbv zeta.
  destruct (PY_SSIZE_T_MAX <? n); [eauto|].
  destruct (n <=? len (unread f)); [auto|].
  destruct (n <=? DEFAULT_BUFFER_SIZE); [auto|].
  destruct (BYTES_MAX <? n); [eauto|].
  destruct (alloc_max <? n); [eauto|auto].
Qed.

(** Reading past the end of the file returns what is left, when the
    buffer of the read is granted. *)
Lemma read_short (n : Z) (bs : list byte) (p : Z) :
  len bs <= n -> allocatable n = true ->
  read n {| unread := bs; position := p |}
  = (Ok bs, {| unread := []; position := p + len bs |}, []).
Proof.
  intros H1 H2. apply allocatable_inv in H2.
  unfold read. cbv zeta. cbn [unread position].
  rewrite take_all, drop_all by exact H1.
  destruct (Z.ltb_spec PY_SSIZE_T_MAX n);
    [unfold BYTES_MAX, DEFAULT_BUFFER_SIZE, PY_SSIZE_T_MAX in *; lia|].
  destruct (n <=? len bs); [reflexivity|].
  destruct (Z.leb_spec n DEFAULT_BUFFER_SIZE); [reflexivity|].
  destruct (Z.ltb_spec BYTES_MAX n); [lia|].
  destruct (Z.ltb_spec alloc_max n); [lia|reflexivity].
Qed.

Lemma read_short_small (n : Z) (bs : list byte) (p : Z) :
  len bs <= n -> n <= DEFAULT_BUFFER_SIZE ->
  read n {| unread := bs; position := p |}
  = (Ok bs, {| unread := []; position := p + len bs |}, []).
Proof.
  intros H1 H2. apply read_short; [exact H1|].
  unfold allocatable. apply orb_true_iff. left. apply Z.leb_le. exact H2.
Qed.

(** A read that the file cannot fill and whose buffer is refused raises
    before any byte is taken. *)
Lemma read_refused (n : Z) (f : file) :
  len (unread f) < n -> allocatable n = false ->
  read n f = (Raise (refusal n), f, []).
Proof.
  unfold allocatable, refusal. rewrite orb_false_iff, andb_false_iff.
  rewrite !Z.leb_gt. intros H1 [H2 H3].
  unfold read. cbv zeta.
  destruct (Z.ltb_spec PY_SSIZE_T_MAX n).
  { destruct (Z.ltb_spec BYTES_MAX n); [reflexivity|].
    unfold BYTES_MAX in *. lia. }
  destruct (Z.leb_spec n (len (unread f))); [lia|].
  destruct (Z.leb_spec n DEFAULT_BUFFER_SIZE); [lia|].
  destruct (Z.ltb_spec BYTES_MAX n); [reflexivity|].
  destruct (Z.ltb_spec alloc_max n); [reflexivity|lia].
Qed.

Lemma read_u32 {B} (z : Z) (r : list byte) (p : Z) (k : Z -> M file B) :
  0 <= z < 2 ^ 32 ->
  (bs <- read 4 ;; x <- lift (unpack_I bs) ;; k x)
    {| unread := le_encode 4 z ++ r; position := p |}
  = k z {| unread := r; position := p + 4 |}.
Proof.
  intros H. rewrite read_then; [| apply len_le_encode | unfold PY_SSIZE_T_MAX; lia].
  unfold unpack_I. rewrite unpack_uint_encode by (simpl; lia).
  apply lift_then.
Qed.

Lemma read_u64 {B} (z : Z) (r : list byte) (p : Z) (k : Z -> M file B) :
  0 <= z < 2 ^ 64 ->
  (bs <- read 8 ;; x <- lift (unpack_Q bs) ;; k x)
    {| unread := le_encode 8 z ++ r; position := p |}
  = k z {| unread := r; position := p + 8 |}.
Proof.
  intros H. rewrite read_then; [| apply len_le_encode | unfold PY_SSIZE_T_MAX; lia].
  unfold unpack_Q. rewrite unpack_uint_encode by (simpl; lia).
  apply lift_then.
Qed.

(** ** The UTF-8 codec *)

Lemma decode_utf8_valid (bs : list byte) :
  valid_utf8 bs = true -> decode_utf8 bs = Ok (decode_utf8_replace bs).
Proof.
  unfold valid_utf8, decode_utf8, decode_utf8_replace. intros H. rewrite H.
  f_equal. apply map_ext_in. intros [c|] Hin; [reflexivity|].
  rewrite forallb_forall in H. apply H in Hin. discriminate.
Qed.

Lemma decode_utf8_invalid (bs : list byte) :
  valid_utf8 bs = false -> decode_utf8 bs = Raise UnicodeDecodeError.
Proof. unfold valid_utf8, decode_utf8. intros ->. reflexivity. Qed.


(** ** Fields of the stream *)

Lemma take_drop {A} (n : Z) (l : list A) : take n l ++ drop n l = l.
Proof.
  revert n. induction l as [|x l IH]; intros n; cbn [take drop]; [reflexivity|].
  destruct (n <=? 0); [reflexivity|]. cbn [app]. now rewrite IH.
Qed.

Lemma len_take {A} (n : Z) (l : list A) : 0 <= n <= len l -> len (take n l) = n.
Proof.
  revert n. induction l as [|x l IH]; intros n H; cbn [take].
  - change (len (@nil A)) with 0 in *. lia.
  - rewrite len_cons in H. destruct (Z.leb_spec n 0).
    + change (len (@nil A)) with 0. lia.
    + rewrite len_cons, IH by lia. lia.
Qed.

Lemma len_drop {A} (n : Z) (l : list A) :
  0 <= n <= len l -> len (drop n l) = len l - n.
Proof.
  intros H. pose proof (take_drop n l) as E. apply (f_equal len) in E.
  rewrite len_app, len_take in E by exact H. lia.
Qed.

Lemma unpack_uint_len (n : nat) (bs : list byte) :
  len bs = Z.of_nat n -> unpack_uint n bs = Ok (le_decode bs).
Proof.
  unfold len, unpack_uint. intros H. apply Nat2Z.inj in H. rewrite H.
  now rewrite Nat.eqb_refl.
Qed.

Lemma unpack_f_len (bs : list byte) :
  len bs = 4 -> unpack_f bs = Ok (binary32_of_bits (le_decode bs)).
Proof.
  unfold len, unpack_f. intros H.
  replace (length bs) with 4%nat by lia. reflexivity.
Qed.

Lemma unpack_bool_len (bs : list byte) :
  len bs = 1 -> unpack_bool bs = Ok (negb (le_decode bs =? 0)).
Proof.
  unfold len, unpack_bool. intros H.
  replace (length bs) with 1%nat by lia. reflexivity.
Qed.

Ltac max_bound := unfold PY_SSIZE_T_MAX in *; lia.

(** Closes an equation between two runs that differ in how the final
    offset is written. *)
Ltac same_offset :=
  match goal with
  | |- (_, {| unread := _; position := ?a |}, _)
       = (_, {| unread := _; position := ?b |}, _) =>
    replace a with b by lia; reflexivity
  end.

(** The value of a well-formed scalar entry is read whole, and nothing
    beyond it. *)
Lemma read_value_scalar (key : pystr) (t : Z) (p r : list byte) (pos : Z) :
  payload_ok t p = true ->
  read_value key t {| unread := p ++ r; position := pos |}
  = (Ok (Some (shown_value t p)),
     {| unread := r; position := pos + len p |}, []).
Proof.
  unfold payload_ok, read_value, shown_value, declared_value.
  destruct (Z.eqb_spec t 8) as [->|N8].
  - cbn [Z.eqb orb]. rewrite !andb_true_iff.
    intros [[H1 H2] H3]. apply Z.leb_le in H1, H3. apply Z.eqb_eq in H2.
    rewrite <- (take_drop 8 p) at 1. rewrite <- app_assoc.
    rewrite read_then; [| apply len_take; lia | max_bound].
    unfold unpack_Q. rewrite unpack_uint_len by (apply len_take; lia).
    rewrite lift_then, H2.
    rewrite read_then; [| apply len_drop; lia | lia].
    cbn [Pos.eqb orb]. unfold ret.
    replace (pos + 8 + (len p - 8)) with (pos + len p) by lia. reflexivity.
  - destruct (Z.eqb_spec t 4) as [->|N4];
    [|destruct (Z.eqb_spec t 5) as [->|N5];
      [|destruct (Z.eqb_spec t 6) as [->|N6];
        [|destruct (Z.eqb_spec t 7) as [->|N7];
          [|destruct (Z.eqb_spec t 10) as [->|N10];
            [|destruct (Z.eqb_spec t 11) as [->|N11]]]]]];
    cbn [Z.eqb orb Pos.eqb]; intros H; try discriminate; apply Z.eqb_eq in H;
    (rewrite read_then; [| exact H | max_bound]).
    + unfold unpack_I. rewrite unpack_uint_len by exact H. rewrite lift_then.
      unfold ret. now rewrite H.
    + unfold unpack_I. rewrite unpack_uint_len by exact H. rewrite lift_then.
      unfold ret. now rewrite H.
    + rewrite unpack_f_len by exact H. rewrite lift_then.
      unfold ret. now rewrite H.
    + rewrite unpack_bool_len by exact H. rewrite lift_then.
      unfold ret. now rewrite H.
    + unfold unpack_Q. rewrite unpack_uint_len by exact H. rewrite lift_then.
      unfold ret. now rewrite H.
    + unfold unpack_Q. rewrite unpack_uint_len by exact H. rewrite lift_then.
      unfold ret. now rewrite H.
Qed.

(** ** One entry *)

(** After a well-formed key and type tag the reader stands at the value,
    with the key decoded. *)
Lemma kv_entry_key (kb : list byte) (t : Z) (r : list byte) (p : Z) :
  key_ok kb = true -> 0 <= t < 2 ^ 32 ->
  kv_entry {| unread := le_encode 8 (len kb) ++ kb ++ le_encode 4 t ++ r;
              position := p |}
  = (v <- read_value (decode_utf8_replace kb) t ;;
     match v with
     | Some value => print (Pair (decode_utf8_replace kb) value) ;; ret Continue
     | None => ret Break
     end) {| unread := r; position := p + 8 + len kb + 4 |}.
Proof.
  unfold key_ok. rewrite andb_true_iff. intros [Hv Hl] Ht.
  apply Z.leb_le in Hl. pose proof (len_nonneg kb).
  unfold kv_entry. rewrite read_u64 by max_bound.
  rewrite read_then by (reflexivity || lia).
  rewrite decode_utf8_valid by exact Hv. rewrite lift_then.
  rewrite read_u32 by exact Ht. reflexivity.
Qed.

Lemma len_layout (e : entry) :
  len (layout e) = 8 + len (e_key e) + 4 + len (e_payload e).
Proof. unfold layout. rewrite !len_app, !len_le_encode. lia. Qed.

Lemma scalar_entry_inv (e : entry) :
  scalar_entry e = true ->
  key_ok (e_key e) = true /\ 0 <= e_type e < 2 ^ 32
  /\ payload_ok (e_type e) (e_payload e) = true.
Proof.
  unfold scalar_entry. rewrite !andb_true_iff.
  intros [[[H1 H2] H3] H4]. apply Z.leb_le in H2. apply Z.ltb_lt in H3. auto.
Qed.

(** A well-formed scalar entry is consumed exactly and printed. *)
Lemma kv_entry_scalar (e : entry) (r : list byte) (p : Z) :
  scalar_entry e = true ->
  kv_entry {| unread := layout e ++ r; position := p |}
  = (Ok Continue, {| unread := r; position := p + len (layout e) |},
     [shown_pair e]).
Proof.
  intros H. apply scalar_entry_inv in H as (Hk & Ht & Hp).
  unfold layout. rewrite <- !app_assoc.
  rewrite kv_entry_key by assumption.
  erewrite bind_silent by (apply read_value_scalar; exact Hp).
  unfold bind, print, ret, shown_pair, key_of. cbn [app].
  rewrite !len_app, !len_le_encode. same_offset.
Qed.

Lemma kv_iteration_scalar (e : entry) (r : list byte) (p : Z) :
  scalar_entry e = true ->
  kv_iteration {| unread := layout e ++ r; position := p |}
  = (Ok Continue, {| unread := r; position := p + len (layout e) |},
     [shown_pair e]).
Proof.
  intros H. unfold kv_iteration, try_except.
  rewrite kv_entry_scalar by exact H. reflexivity.
Qed.

(** ** The loop *)

(** A run of well-formed scalar entries is printed in order, and the loop
    goes on behind it with the iterations that are left. *)
Lemma kv_loop_scalars (es : list entry) (n : nat) (r : list byte) (p : Z) :
  forallb scalar_entry es = true ->
  kv_loop (length es + n) {| unread := flat_map layout es ++ r; position := p |}
  = match kv_loop n {| unread := r;
                       position := p + len (flat_map layout es) |} with
    | (res, s, o) => (res, s, map shown_pair es ++ o)
    end.
Proof.
  revert p. induction es as [|e es IH]; intros p H.
  - cbn [length flat_map map app Nat.add]. change (len (@nil byte)) with 0.
    rewrite Z.add_0_r. destruct (kv_loop n _) as [[res s] o]. reflexivity.
  - cbn [forallb] in H. apply andb_true_iff in H as [He Hes].
    cbn [length flat_map map Nat.add kv_loop]. rewrite <- app_assoc.
    unfold bind at 1. rewrite kv_iteration_scalar by exact He.
    rewrite IH by exact Hes. rewrite len_app, Z.add_assoc.
    destruct (kv_loop n _) as [[res s] o]. reflexivity.
Qed.

(** On a stream that starts with a well-formed header the reader prints
    the header fields and enters the loop at offset 24. *)
Lemma inspect_gguf_raw_f_header (version tensor_count kv_count : Z)
      (body : list byte) :
  0 <= version < 2 ^ 32 -> 0 <= tensor_count < 2 ^ 64 ->
  0 <= kv_count < 2 ^ 64 ->
  inspect_gguf_raw_f (start (header version tensor_count kv_count ++ body))
  = match kv_loop (Z.to_nat kv_count) {| unread := body; position := 24 |} with
    | (res, s, o) =>
      (res, s, header_lines version tensor_count kv_count ++ o)
    end.
Proof.
  intros Hv Ht Hk. unfold inspect_gguf_raw_f, start, header.
  rewrite <- !app_assoc.
  rewrite read_then by (reflexivity || max_bound).
  replace (bytes_eqb GGUF_MAGIC GGUF_MAGIC) with true by reflexivity.
  cbn [negb]. rewrite read_u32 by exact Hv.
  rewrite read_u64 by exact Ht. rewrite read_u64 by exact Hk.
  unfold bind, print. cbn [Z.add Pos.add Pos.succ].
  destruct (kv_loop _ _) as [[res s] o]. reflexivity.
Qed.

(** ** Early termination *)

Lemma kv_iteration_array (kb : list byte) (arr_type arr_len : Z)
      (r : list byte) (p : Z) :
  key_ok kb = true -> 0 <= arr_type < 2 ^ 32 -> 0 <= arr_len < 2 ^ 64 ->
  kv_iteration
    {| unread := le_encode 8 (len kb) ++ kb ++ le_encode 4 9
                 ++ le_encode 4 arr_type ++ le_encode 8 arr_len ++ r;
       position := p |}
  = (Ok Break, {| unread := r; position := p + 8 + len kb + 4 + 12 |},
     [ArrayStop (decode_utf8_replace kb) arr_len arr_type]).
Proof.
  intros Hk Ht Hl. unfold kv_iteration, try_except.
  rewrite kv_entry_key by (assumption || lia).
  unfold read_value. cbn [Z.eqb Pos.eqb orb].
  unfold bind at 1. rewrite read_u32 by exact Ht.
  rewrite read_u64 by exact Hl.
  unfold bind, print, ret. cbn [app]. same_offset.
Qed.

Lemma read_value_unknown (key : pystr) (t : Z) (f : file) :
  is_supported_type t = false ->
  read_value key t f = (Ok None, f, [UnknownTypeStop key t]).
Proof.
  unfold is_supported_type, is_scalar_type, read_value.
  rewrite !orb_false_iff. intros [[[[[[[H4 H5] H6] H7] H8] H10] H11] H9].
  rewrite H4, H5, H6, H7, H8, H9, H10, H11. reflexivity.
Qed.

Lemma kv_iteration_unknown (kb : list byte) (t : Z) (r : list byte) (p : Z) :
  key_ok kb = true -> 0 <= t < 2 ^ 32 -> is_supported_type t = false ->
  kv_iteration
    {| unread := le_encode 8 (len kb) ++ kb ++ le_encode 4 t ++ r;
       position := p |}
  = (Ok Break, {| unread := r; position := p + 8 + len kb + 4 |},
     [UnknownTypeStop (decode_utf8_replace kb) t]).
Proof.
  intros Hk Ht Hu. unfold kv_iteration, try_except.
  rewrite kv_entry_key by assumption.
  unfold bind. rewrite read_value_unknown by exact Hu. reflexivity.
Qed.

Lemma kv_iteration_bad_key (kb r : list byte) (p : Z) :
  valid_utf8 kb = false -> len kb <= PY_SSIZE_T_MAX ->
  kv_iteration {| unread := le_encode 8 (len kb) ++ kb ++ r; position := p |}
  = (Ok Break, {| unread := r; position := p + 8 + len kb |},
     [KVError UnicodeDecodeError]).
Proof.
  intros Hv Hl. pose proof (len_nonneg kb).
  unfold kv_iteration, try_except, kv_entry.
  rewrite read_u64 by max_bound.
  rewrite read_then by (reflexivity || lia).
  rewrite decode_utf8_invalid by exact Hv. reflexivity.
Qed.

(** The iterations the header declares, split at an entry that exists. *)
Lemma iterations_split (kv_count : Z) (done : nat) :
  Z.of_nat done < kv_count ->
  Z.to_nat kv_count = (done + S (Z.to_nat (kv_count - Z.of_nat done - 1)))%nat.
Proof. lia. Qed.

(** The loop stops at the iteration that breaks. *)
Lemma kv_loop_break (n : nat) (f f' : file) (o : list line) :
  kv_iteration f = (Ok Break, f', o) ->
  kv_loop (S n) f = (Ok tt, f', o).
Proof.
  intros H. cbn [kv_loop]. unfold bind. rewrite H. cbn [ret].
  now rewrite app_nil_r.
Qed.

(** The shape shared by the statements about an entry that ends the walk:
    the header, [es] well-formed scalar entries, then bytes [tail] on which
    the next iteration breaks. *)
Lemma walk_until_break (version tensor_count kv_count : Z) (es : list entry)
      (tail : list byte) (f' : file) (o : list line) :
  0 <= version < 2 ^ 32 -> 0 <= tensor_count < 2 ^ 64 ->
  len es < kv_count < 2 ^ 64 ->
  forallb scalar_entry es = true ->
  kv_iteration {| unread := tail;
                  position := 24 + len (flat_map layout es) |}
  = (Ok Break, f', o) ->
  inspect_gguf_raw_f
    (start (header version tensor_count kv_count ++ flat_map layout es ++ tail))
  = (Ok tt, f',
     header_lines version tensor_count kv_count ++ map shown_pair es ++ o).
Proof.
  intros Hv Ht Hk Hes Hbreak. pose proof (len_nonneg es).
  rewrite inspect_gguf_raw_f_header by lia.
  rewrite (iterations_split kv_count (length es)) by (unfold len in Hk; lia).
  rewrite kv_loop_scalars by exact Hes.
  erewrite kv_loop_break by exact Hbreak. reflexivity.
Qed.

(* ================================================================== *)
(** * The claims *)

(** C3.  When entry K is the first array-typed entry (tag 9), after K-1
    well-formed scalar entries and with K within the declared count, the
    reader prints the header, the K-1 pairs in order, then the one
    placeholder line with the element count and element type of the
    array, and stops: it returns normally, prints nothing more, and the
    stream stands right after the 8-byte element count, so no byte of the
    array contents (nor of anything behind it) is read. *)
Theorem array_entry_ends_walk
        (version tensor_count kv_count : Z) (es : list entry)
        (kb : list byte) (arr_type arr_len : Z) (rest : list byte) :
  0 <= version < 2 ^ 32 -> 0 <= tensor_count < 2 ^ 64 ->
  len es + 1 <= kv_count < 2 ^ 64 ->
  forallb scalar_entry es = true ->
  key_ok kb = true -> 0 <= arr_type < 2 ^ 32 -> 0 <= arr_len < 2 ^ 64 ->
  inspect_gguf_raw_f
    (start (header version tensor_count kv_count ++ flat_map layout es
            ++ le_encode 8 (len kb) ++ kb ++ le_encode 4 9
            ++ le_encode 4 arr_type ++ le_encode 8 arr_len ++ rest))
  = (Ok tt,
     {| unread := rest;
        position := 24 + len (flat_map layout es) + 8 + len kb + 4 + 12 |},
     header_lines version tensor_count kv_count ++ map shown_pair es
     ++ [ArrayStop (decode_utf8_replace kb) arr_len arr_type])
  /\ length (map shown_pair es) = length es.
Proof.
  intros Hv Ht Hk Hes Hkb Hat Hal. split; [|apply length_map].
  apply walk_until_break; try assumption; try lia.
  apply kv_iteration_array; assumption.
Qed.

(** C4.  When the first four bytes of the stream are not the magic
    b"GGUF" (a stream shorter than four bytes included), the reader prints
    the bad-magic line and nothing else, returns, and has consumed only
    the bytes of the magic read: the version, tensor count and key/value
    count are never read. *)
Theorem bad_magic_rejected (data : list byte) :
  take 4 data <> GGUF_MAGIC ->
  inspect_gguf_raw_f (start data)
  = (Ok tt,
     {| unread := drop 4 data; position := len (take 4 data) |},
     [BadMagic])
  /\ len (take 4 data) <= 4.
Proof.
  intros H. split; [|apply len_take_bound; lia].
  unfold inspect_gguf_raw_f, start, bind.
  rewrite read_any by small_read. cbn [unread position].
  destruct (bytes_eqb (take 4 data) GGUF_MAGIC) eqn:E.
  - apply bytes_eqb_eq in E. contradiction.
  - reflexivity.
Qed.

(** C5.  When an entry carries a type tag outside 4, 5, 6, 7, 8, 9, 10, 11,
    after well-formed scalar entries, the reader prints the pairs of those
    entries, then one line naming the key and the unknown tag, and ends the
    walk: it returns normally and reads nothing behind the tag. *)
Theorem unknown_type_ends_walk
        (version tensor_count kv_count : Z) (es : list entry)
        (kb : list byte) (val_type : Z) (rest : list byte) :
  0 <= version < 2 ^ 32 -> 0 <= tensor_count < 2 ^ 64 ->
  len es + 1 <= kv_count < 2 ^ 64 ->
  forallb scalar_entry es = true ->
  key_ok kb = true -> 0 <= val_type < 2 ^ 32 ->
  is_supported_type val_type = false ->
  inspect_gguf_raw_f
    (start (header version tensor_count kv_count ++ flat_map layout es
            ++ le_encode 8 (len kb) ++ kb ++ le_encode 4 val_type ++ rest))
  = (Ok tt,
     {| unread := rest;
        position := 24 + len (flat_map layout es) + 8 + len kb + 4 |},
     header_lines version tensor_count kv_count ++ map shown_pair es
     ++ [UnknownTypeStop (decode_utf8_replace kb) val_type]).
Proof.
  intros Hv Ht Hk Hes Hkb Hvt Hu.
  apply walk_until_break; try assumption; try lia.
  apply kv_iteration_unknown; assumption.
Qed.

(** C7.  When the bytes of a key are not valid UTF-8, the entry fails at
    the key: the reader prints the pairs of the entries before it, then
    one diagnostic line for the decoding error, and ends the walk.  It
    returns normally, and neither the type tag and value of that entry nor
    any later entry is read. *)
Theorem invalid_key_ends_walk
        (version tensor_count kv_count : Z) (es : list entry)
        (kb rest : list byte) :
  0 <= version < 2 ^ 32 -> 0 <= tensor_count < 2 ^ 64 ->
  len es + 1 <= kv_count < 2 ^ 64 ->
  forallb scalar_entry es = true ->
  valid_utf8 kb = false -> len kb <= PY_SSIZE_T_MAX ->
  inspect_gguf_raw_f
    (start (header version tensor_count kv_count ++ flat_map layout es
            ++ le_encode 8 (len kb) ++ kb ++ rest))
  = (Ok tt,
     {| unread := rest;
        position := 24 + len (flat_map layout es) + 8 + len kb |},
     header_lines version tensor_count kv_count ++ map shown_pair es
     ++ [KVError UnicodeDecodeError]).
Proof.
  intros Hv Ht Hk Hes Hkb Hl.
  apply walk_until_break; try assumption; try lia.
  apply kv_iteration_bad_key; assumption.
Qed.

(** ** Whole streams of scalar entries *)

Lemma kv_loop_done (f : file) : kv_loop 0 f = (Ok tt, f, []).
Proof. reflexivity. Qed.

(** The header and [es] well-formed scalar entries, when the header
    declares exactly those: one pair per entry, in file order, the stream
    consumed up to the end of the last entry. *)
Lemma scalar_entries_shown (version tensor_count : Z) (es : list entry)
      (trailing : list byte) :
  0 <= version < 2 ^ 32 -> 0 <= tensor_count < 2 ^ 64 -> len es < 2 ^ 64 ->
  forallb scalar_entry es = true ->
  inspect_gguf_raw_f
    (start (header version tensor_count (len es) ++ flat_map layout es
            ++ trailing))
  = (Ok tt,
     {| unread := trailing; position := 24 + len (flat_map layout es) |},
     header_lines version tensor_count (len es) ++ map shown_pair es).
Proof.
  intros Hv Ht Hk Hes. pose proof (len_nonneg es).
  rewrite inspect_gguf_raw_f_header by lia.
  replace (Z.to_nat (len es)) with (length es + 0)%nat by (unfold len; lia).
  rewrite kv_loop_scalars by exact Hes. rewrite kv_loop_done.
  now rewrite app_nil_r.
Qed.

Lemma string_field_ok (body : list byte) :
  len body <= PY_SSIZE_T_MAX -> payload_ok 8 (string_field body) = true.
Proof.
  intros H. pose proof (len_nonneg body).
  unfold payload_ok, string_field. cbn [Z.eqb Pos.eqb].
  rewrite len_app, len_le_encode.
  replace (take 8 (le_encode 8 (len body) ++ body))
    with (le_encode 8 (len body))
    by (symmetry; apply (take_app_exact (le_encode 8 (len body)) body)).
  rewrite le_decode_encode by max_bound.
  rewrite !andb_true_iff. repeat split.
  - apply Z.leb_le. lia.
  - apply Z.eqb_eq. lia.
  - apply Z.leb_le. lia.
Qed.

Lemma shown_string_field (body : list byte) :
  shown_value 8 (string_field body) = VStr (decode_utf8_replace body).
Proof.
  unfold shown_value, declared_value, string_field. cbn [Z.eqb Pos.eqb orb].
  replace (drop 8 (le_encode 8 (len body) ++ body)) with body
    by (symmetry; apply (drop_app_exact (le_encode 8 (len body)) body)).
  reflexivity.
Qed.


(* ================================================================== *)
(** ** The entry point and the library reader *)

(** C9.  When the path given on the command line does not exist, the
    script prints the two not-found lines and returns normally.  The only
    call that reaches the file system is the existence test: the library
    reader is not built and the file is not opened. *)
Theorem missing_path_not_read
        (E : env) (script target_path : string) (more : list string) :
  path_exists E target_path = false ->
  main E (script :: target_path :: more) []
  = (Ok tt, [StatPath target_path],
     [FileNotFound target_path; PleaseProvide]).
Proof.
  intros H. unfold main.
  assert (Hlen : (1 <? len (script :: target_path :: more)) = true).
  { apply Z.ltb_lt. rewrite !len_cons. pose proof (len_nonneg more). lia. }
  rewrite Hlen. cbn [nth]. rewrite ret_then.
  unfold bind, touch. rewrite H. reflexivity.
Qed.

(** Without an argument the default path is announced and tested the same
    way. *)
Lemma missing_default_path_not_read (E : env) (script : string) :
  path_exists E default_path = false ->
  main E [script] []
  = (Ok tt, [StatPath default_path],
     [UsingDefault default_path; FileNotFound default_path; PleaseProvide]).
Proof.
  intros H. unfold main.
  replace (1 <? len [script]) with false by reflexivity.
  unfold bind, touch, print, ret. rewrite H. reflexivity.
Qed.

(** The raw fallback inside its own handler never raises. *)
Lemma fallback_returns (E : env) (model_path : string) (log : list access) :
  exists log' out,
    try_except
      (print FallingBack ;; inspect_gguf_raw E model_path ;; ret None)
      (fun patch_e => print (CouldNotPatch patch_e) ;; ret None) log
    = (Ok (@None Reader), log', out).
Proof.
  unfold try_except, bind, print, ret.
  destruct (inspect_gguf_raw E model_path log) as [[[u|e'] s1] o1];
    cbn; eauto.
Qed.

Lemma load_reader_failure (E : env) (model_path : string) (e : exn)
      (log : list access) :
  GGUFReader E model_path = Raise e ->
  exists log' out, load_reader E model_path log = (Ok None, log', out).
Proof.
  intros H. unfold load_reader. unfold try_except at 1.
  assert (Hm : (touch (LoadReader model_path) ;;
                reader <- lift (GGUFReader E model_path) ;;
                ret (Some reader)) log
               = (Raise e, log ++ [LoadReader model_path], [])).
  { unfold bind, touch, lift. rewrite H. reflexivity. }
  rewrite Hm.
  destruct e; try (cbn; eauto; fail).
  destruct (contains _ msg); [|cbn; eauto].
  destruct (fallback_returns E model_path (log ++ [LoadReader model_path]))
    as (log' & out & Hf).
  unfold bind at 1. cbn [print]. unfold bind at 1. cbn [print].
  rewrite Hf. cbn. eauto.
Qed.

(** Whatever the library reader raises, [inspect_gguf] handles it: the
    raw fallback may itself raise (a file that cannot be opened, a header
    cut short), and that is caught too. *)
Lemma reader_failure_handled (E : env) (model_path : string) (e : exn) :
  GGUFReader E model_path = Raise e ->
  exists log out, inspect_gguf E model_path [] = (Ok tt, log, out).
Proof.
  intros H. unfold inspect_gguf.
  destruct (load_reader_failure E model_path e [] H) as (log' & out & Hl).
  unfold bind at 1. cbn [print]. unfold bind at 1. rewrite Hl.
  cbn. eauto.
Qed.

(** The header reads of [inspect_gguf_raw] stand outside its [try]: on a
    file cut inside the header the exception leaves the raw reader, and
    the handler around the fallback prints it. *)
Lemma truncated_header_caught :
  let cut := {| path_exists := fun _ => true;
                open_rb := fun _ => Ok (GGUF_MAGIC ++ [x03]);
                GGUFReader := fun _ =>
                  Raise (ValueError "39 is not a valid GGMLQuantizationType") |} in
  inspect_gguf_raw cut "m.gguf" [] = (Raise StructError, [OpenFile "m.gguf"], [])
  /\ inspect_gguf cut "m.gguf" []
     = (Ok tt, [LoadReader "m.gguf"; OpenFile "m.gguf"],
        [Inspecting "m.gguf"; UnknownQuantization; AttemptingPatch;
         FallingBack; CouldNotPatch StructError]).
Proof. split; vm_compute; reflexivity. Qed.

(** When the reader is built and the file has no [general.architecture]
    key, the unguarded access of source line 55 raises, and nothing in
    [inspect_gguf] catches it. *)
Lemma missing_architecture_raises (E : env) (model_path : string)
      (reader : Reader) :
  GGUFReader E model_path = Ok reader ->
  get_field reader (pystr_of_string "general.architecture") = None ->
  inspect_gguf E model_path []
  = (Raise AttributeError, [LoadReader model_path],
     [Inspecting model_path; ArchitectureHeading]).
Proof.
  intros H1 H2. unfold inspect_gguf, load_reader, report, architecture_of.
  unfold bind, try_except, touch, lift, print, ret. rewrite H1.
  cbn [app]. unfold parts_of. rewrite H2. reflexivity.
Qed.

(** C8 fails on the code.  On [bare.gguf], a well-formed file that the
    library reads and that has no [general.architecture] key, the
    exception of source line 55 leaves [inspect_gguf] and then the script:
    the run ends in an unhandled [AttributeError] after two printed
    lines. *)
Theorem missing_architecture_escapes :
  GGUFReader bare_env "bare.gguf" = Ok bare_reader
  /\ inspect_gguf bare_env "bare.gguf" []
     = (Raise AttributeError, [LoadReader "bare.gguf"],
        [Inspecting "bare.gguf"; ArchitectureHeading])
  /\ main bare_env ["inspect_architecture.py"; "bare.gguf"]%string []
     = (Raise AttributeError, [StatPath "bare.gguf"; LoadReader "bare.gguf"],
        [Inspecting "bare.gguf"; ArchitectureHeading]).
Proof. repeat split; vm_compute; reflexivity. Qed.

(** The guarded lookup of source lines 58-63, by contrast, turns the same
    kind of failure into a printed line: with an architecture present and
    a block-count field whose parts are empty, the report goes on. *)
Lemma guarded_lookup_recovers :
  let arch := {| itemsize := 1; items := [108; 108] |} in
  let reader :=
    {| fields :=
         [ (pystr_of_string "general.architecture",
            {| name := pystr_of_string "general.architecture";
               parts := [arch] |});
           (pystr_of_string "ll.block_count",
            {| name := pystr_of_string "ll.block_count";
               parts := [ {| itemsize := 4; items := [] |} ] |}) ];
       tensors := [] |} in
  report reader tt
  = (Ok tt, tt,
     [ArchitectureHeading; Architecture [108; 108]; NoLayerCount;
      MetadataFirst20;
      Field (pystr_of_string "general.architecture") arch;
      Field (pystr_of_string "ll.block_count")
            {| itemsize := 4; items := [] |};
      TensorHeading]).
Proof. vm_compute. reflexivity. Qed.

(* ================================================================== *)
(** ** Truncated string fields *)

(** At the end of the file the next iteration fails on the key length. *)
Lemma kv_iteration_at_eof (p : Z) :
  kv_iteration {| unread := []; position := p |}
  = (Ok Break, {| unread := []; position := p + 0 |}, [KVError StructError]).
Proof. reflexivity. Qed.

Lemma kv_loop_at_eof (n : nat) (p : Z) :
  kv_loop n {| unread := []; position := p |}
  = (Ok tt, {| unread := []; position := p |},
     match n with O => [] | S _ => [KVError StructError] end).
Proof.
  destruct n; [reflexivity|].
  erewrite kv_loop_break by apply kv_iteration_at_eof.
  now rewrite Z.add_0_r.
Qed.

(** A string value cut short by the end of the file, when the buffer of
    the declared size is granted: the bytes that are there are decoded and
    printed as the value. *)
Lemma kv_iteration_short_string (kb : list byte) (s_len : Z)
      (avail : list byte) (p : Z) :
  key_ok kb = true -> len avail < s_len -> allocatable s_len = true ->
  kv_iteration
    {| unread := le_encode 8 (len kb) ++ kb ++ le_encode 4 8
                 ++ le_encode 8 s_len ++ avail;
       position := p |}
  = (Ok Continue,
     {| unread := []; position := p + 8 + len kb + 4 + 8 + len avail |},
     [Pair (decode_utf8_replace kb) (VStr (decode_utf8_replace avail))]).
Proof.
  intros Hk Hs Ha. pose proof (len_nonneg avail).
  pose proof (allocatable_inv s_len Ha) as Hb.
  unfold kv_iteration, try_except.
  rewrite kv_entry_key by (assumption || lia).
  unfold read_value. cbn [Z.eqb Pos.eqb].
  unfold bind at 1.
  rewrite read_u64
    by (unfold BYTES_MAX, DEFAULT_BUFFER_SIZE, PY_SSIZE_T_MAX in *; lia).
  unfold bind at 1. rewrite read_short by (lia || exact Ha). reflexivity.
Qed.

(** The same value when the buffer is refused: the read raises, nothing
    is taken from the file and no pair is printed. *)
Lemma kv_iteration_refused_string (kb : list byte) (s_len : Z)
      (avail : list byte) (p : Z) :
  key_ok kb = true -> len avail < s_len < 2 ^ 64 ->
  allocatable s_len = false ->
  kv_iteration
    {| unread := le_encode 8 (len kb) ++ kb ++ le_encode 4 8
                 ++ le_encode 8 s_len ++ avail;
       position := p |}
  = (Ok Break,
     {| unread := avail; position := p + 8 + len kb + 4 + 8 |},
     [KVError (refusal s_len)]).
Proof.
  intros Hk Hs Ha. pose proof (len_nonneg avail).
  unfold kv_iteration, try_except.
  rewrite kv_entry_key by (assumption || lia).
  unfold read_value. cbn [Z.eqb Pos.eqb].
  unfold bind at 1. rewrite read_u64 by lia.
  unfold bind at 1. rewrite read_refused by (cbn [unread]; lia || exact Ha).
  reflexivity.
Qed.

(** A key cut short by the end of the file, when the buffer of the
    declared size is granted: the bytes that are there are taken as the
    key; they either fail to decode, or decode and leave no byte for the
    type tag. *)
Lemma kv_iteration_short_key (key_len : Z) (avail : list byte) (p : Z) :
  len avail < key_len -> allocatable key_len = true ->
  kv_iteration {| unread := le_encode 8 key_len ++ avail; position := p |}
  = (Ok Break, {| unread := []; position := p + 8 + len avail |},
     [KVError (if valid_utf8 avail then StructError
               else UnicodeDecodeError)]).
Proof.
  intros Hs Ha. pose proof (len_nonneg avail).
  pose proof (allocatable_inv key_len Ha) as Hb.
  unfold kv_iteration, try_except, kv_entry.
  rewrite read_u64
    by (unfold BYTES_MAX, DEFAULT_BUFFER_SIZE, PY_SSIZE_T_MAX in *; lia).
  unfold bind at 1. rewrite read_short by (lia || exact Ha).
  destruct (valid_utf8 avail) eqn:Hv.
  - rewrite decode_utf8_valid by exact Hv. rewrite lift_then.
    unfold bind at 1. rewrite read_any by small_read.
    cbn [unread position take drop]. unfold bind, lift. cbn.
    now rewrite Z.add_0_r.
  - rewrite decode_utf8_invalid by exact Hv. reflexivity.
Qed.

(** The same key when the buffer is refused. *)
Lemma kv_iteration_refused_key (key_len : Z) (avail : list byte) (p : Z) :
  len avail < key_len < 2 ^ 64 -> allocatable key_len = false ->
  kv_iteration {| unread := le_encode 8 key_len ++ avail; position := p |}
  = (Ok Break, {| unread := avail; position := p + 8 |},
     [KVError (refusal key_len)]).
Proof.
  intros Hs Ha. pose proof (len_nonneg avail).
  unfold kv_iteration, try_except, kv_entry.
  rewrite read_u64 by lia.
  unfold bind at 1. rewrite read_refused by (cbn [unread]; lia || exact Ha).
  reflexivity.
Qed.

(** A declared length that does not fit an index makes the read itself
    raise, whatever the file holds. *)
Lemma kv_iteration_oversized_key (key_len : Z) (r : list byte) (p : Z) :
  PY_SSIZE_T_MAX < key_len < 2 ^ 64 ->
  kv_iteration {| unread := le_encode 8 key_len ++ r; position := p |}
  = (Ok Break, {| unread := r; position := p + 8 |},
     [KVError OverflowError]).
Proof.
  intros H. unfold kv_iteration, try_except, kv_entry.
  rewrite read_u64 by max_bound.
  unfold bind, read. cbv zeta. cbn [unread position].
  destruct (Z.ltb_spec PY_SSIZE_T_MAX key_len); [reflexivity|lia].
Qed.

(** The whole-stream form: the header, [es] well-formed scalar entries,
    then an entry the file ends in.  A cut value is printed as if it were
    whole; a cut key always ends in the diagnostic line. *)
Lemma walk_until_eof (version tensor_count kv_count : Z) (es : list entry)
      (tail : list byte) (p : Z) (o : list line) :
  0 <= version < 2 ^ 32 -> 0 <= tensor_count < 2 ^ 64 ->
  len es + 1 <= kv_count < 2 ^ 64 ->
  forallb scalar_entry es = true ->
  kv_iteration {| unread := tail;
                  position := 24 + len (flat_map layout es) |}
  = (Ok Continue, {| unread := []; position := p |}, o) ->
  inspect_gguf_raw_f
    (start (header version tensor_count kv_count ++ flat_map layout es ++ tail))
  = (Ok tt, {| unread := []; position := p |},
     header_lines version tensor_count kv_count ++ map shown_pair es ++ o
     ++ (if kv_count =? len es + 1 then [] else [KVError StructError])).
Proof.
  intros Hv Ht Hk Hes Hgo. pose proof (len_nonneg es).
  rewrite inspect_gguf_raw_f_header by lia.
  rewrite (iterations_split kv_count (length es)) by (unfold len in Hk; lia).
  rewrite kv_loop_scalars by exact Hes.
  cbn [kv_loop]. unfold bind at 1. rewrite Hgo. rewrite kv_loop_at_eof.
  do 3 f_equal.
  destruct (Z.eqb_spec kv_count (len es + 1)) as [->|N].
  - replace (Z.to_nat (len es + 1 - Z.of_nat (length es) - 1)) with O
      by (unfold len; lia). reflexivity.
  - destruct (Z.to_nat (kv_count - Z.of_nat (length es) - 1)) eqn:E;
      [unfold len in *; lia | reflexivity].
Qed.

(** C10, as the code has it.  Let a string field declare more bytes than
    the file still holds.  What happens turns on the buffer of the declared
    size, which [f.read] allocates before it reads.

    When the buffer is granted, the short read is not detected.  For a
    value (tag 8, after a well-formed key) the bytes that are there are
    decoded in replace mode and printed as the value of the pair, with no
    diagnostic for that entry; an iteration that is left after it fails on
    the empty stream.  For a key the bytes that are there are taken as the
    key, and the entry always ends in the diagnostic line and the end of
    the walk: either they are not valid UTF-8 and the strict decoding
    raises, or they decode and the read of the type tag finds no byte.

    When the buffer is refused, the read raises [MemoryError], or
    [OverflowError] for a size no [bytes] object can have, before a byte
    is taken: value or key, the entry prints the diagnostic line and the
    walk ends. *)
Theorem short_string_field_not_detected
        (version tensor_count kv_count : Z) (es : list entry)
        (kb : list byte) (declared : Z) (avail : list byte) :
  let before :=
    header version tensor_count kv_count ++ flat_map layout es in
  let printed :=
    header_lines version tensor_count kv_count ++ map shown_pair es in
  let offset := 24 + len (flat_map layout es) in
  0 <= version < 2 ^ 32 -> 0 <= tensor_count < 2 ^ 64 ->
  len es + 1 <= kv_count < 2 ^ 64 ->
  forallb scalar_entry es = true ->
  key_ok kb = true ->
  len avail < declared < 2 ^ 64 ->
  (allocatable declared = true ->
   inspect_gguf_raw_f
     (start (before ++ le_encode 8 (len kb) ++ kb ++ le_encode 4 8
             ++ le_encode 8 declared ++ avail))
   = (Ok tt,
      {| unread := [];
         position := offset + 8 + len kb + 4 + 8 + len avail |},
      printed
      ++ [Pair (decode_utf8_replace kb) (VStr (decode_utf8_replace avail))]
      ++ (if kv_count =? len es + 1 then [] else [KVError StructError]))
   /\
   inspect_gguf_raw_f (start (before ++ le_encode 8 declared ++ avail))
   = (Ok tt,
      {| unread := []; position := offset + 8 + len avail |},
      printed
      ++ [KVError (if valid_utf8 avail then StructError
                   else UnicodeDecodeError)]))
  /\
  (allocatable declared = false ->
   inspect_gguf_raw_f
     (start (before ++ le_encode 8 (len kb) ++ kb ++ le_encode 4 8
             ++ le_encode 8 declared ++ avail))
   = (Ok tt,
      {| unread := avail; position := offset + 8 + len kb + 4 + 8 |},
      printed ++ [KVError (refusal declared)])
   /\
   inspect_gguf_raw_f (start (before ++ le_encode 8 declared ++ avail))
   = (Ok tt,
      {| unread := avail; position := offset + 8 |},
      printed ++ [KVError (refusal declared)])).
Proof.
  intros before printed offset Hv Ht Hk Hes Hkb Hd.
  subst before printed offset. rewrite <- !app_assoc.
  split; intros Ha; split.
  - apply walk_until_eof; try assumption.
    apply kv_iteration_short_string; (assumption || lia).
  - apply walk_until_break; try assumption; try lia.
    apply kv_iteration_short_key; (assumption || lia).
  - apply walk_until_break; try assumption; try lia.
    apply kv_iteration_refused_string; assumption.
  - apply walk_until_break; try assumption; try lia.
    apply kv_iteration_refused_key; assumption.
Qed.

(* ================================================================== *)
(** ** Values against their declared type *)

Lemma signed_small (bits x : Z) : x < 2 ^ (bits - 1) -> signed bits x = x.
Proof.
  intros H. unfold signed. destruct (Z.ltb_spec x (2 ^ (bits - 1))); [reflexivity|lia].
Qed.

(** Outside the negative integers of tags 5 and 11 the value shown is the
    declared one. *)
Lemma shown_value_declared (e : entry) :
  sign_bit_clear e = true ->
  shown_value (e_type e) (e_payload e) = declared_value (e_type e) (e_payload e).
Proof.
  unfold sign_bit_clear, shown_value, declared_value.
  destruct (Z.eqb_spec (e_type e) 5) as [->|N5].
  - intros H. apply Z.ltb_lt in H. cbn [Z.eqb Pos.eqb orb].
    now rewrite signed_small by exact H.
  - destruct (Z.eqb_spec (e_type e) 11) as [->|N11]; [|reflexivity].
    intros H. apply Z.ltb_lt in H. cbn [Z.eqb Pos.eqb orb].
    now rewrite signed_small by exact H.
Qed.

(** For a well-formed stream of N scalar entries none of which holds a
    negative signed integer, the reader prints exactly the N pairs, in
    file order, each with the value of its declared type. *)
Lemma scalar_entries_declared (version tensor_count : Z) (es : list entry)
      (trailing : list byte) :
  0 <= version < 2 ^ 32 -> 0 <= tensor_count < 2 ^ 64 -> len es < 2 ^ 64 ->
  forallb scalar_entry es = true ->
  forallb sign_bit_clear es = true ->
  inspect_gguf_raw_f
    (start (header version tensor_count (len es) ++ flat_map layout es
            ++ trailing))
  = (Ok tt,
     {| unread := trailing; position := 24 + len (flat_map layout es) |},
     header_lines version tensor_count (len es) ++ map declared_pair es)
  /\ length (map declared_pair es) = length es.
Proof.
  intros Hv Ht Hk Hes Hs. split; [|apply length_map].
  rewrite scalar_entries_shown by assumption. do 2 f_equal.
  apply map_ext_in. intros e Hin.
  rewrite forallb_forall in Hs. unfold shown_pair, declared_pair.
  now rewrite shown_value_declared by (apply Hs; exact Hin).
Qed.

(** C1 fails on the code at a signed entry.  The stream below is well
    formed: one entry, key [a], tag 5 (a signed 32-bit integer), value
    bytes [ff ff ff ff], that is -1.  The reader prints 4294967295: tags 4
    and 5 are both unpacked with the unsigned format. *)
Theorem signed_entry_shown_unsigned :
  let e := {| e_key := [x61]; e_type := 5;
              e_payload := [xff; xff; xff; xff] |} in
  scalar_entry e = true
  /\ declared_pair e = Pair [97] (VInt (-1))
  /\ inspect_gguf_raw_f (start (header 3 0 1 ++ layout e))
     = (Ok tt, {| unread := []; position := 41 |},
        header_lines 3 0 1 ++ [Pair [97] (VInt 4294967295)]).
Proof. repeat split; vm_compute; reflexivity. Qed.

(** C2 fails on the code at a negative integer.  The value -2 stored as a
    signed 64-bit integer (tag 11) under the key [k] is read back as
    18446744073709551614: tags 10 and 11 are both unpacked with the
    unsigned format. *)
Theorem negative_integer_not_reproduced :
  let v := I64 (-2) in
  in_range v = true
  /\ original v = VInt (-2)
  /\ inspect_gguf_raw_f
       (start (header 3 0 1 ++ layout (encode_entry [107] v)))
     = (Ok tt, {| unread := []; position := 45 |},
        header_lines 3 0 1 ++ [Pair [107] (VInt 18446744073709551614)]).
Proof. repeat split; vm_compute; reflexivity. Qed.

(* ================================================================== *)
(** ** Round trips *)

(** *** UTF-8 *)

Ltac cmp_step :=
  match goal with
  | |- context [?a <? ?b] =>
    destruct (Z.ltb_spec a b); [try (exfalso; lia) | try (exfalso; lia)]
  | |- context [?a <=? ?b] =>
    destruct (Z.leb_spec a b); [try (exfalso; lia) | try (exfalso; lia)]
  | |- context [?a =? ?b] =>
    destruct (Z.eqb_spec a b); [try (exfalso; lia) | try (exfalso; lia)]
  end.

Ltac decide_scan :=
  cbn [utf8_scan]; unfold is_cont; repeat cmp_step; cbn [negb andb orb];
  reflexivity.

Lemma utf8_scan_1 (b : Z) (t : list Z) :
  b < 0x80 -> utf8_scan (b :: t) = Some b :: utf8_scan t.
Proof. intros H. decide_scan. Qed.

Lemma utf8_scan_2 (b1 b2 : Z) (t : list Z) :
  0xC2 <= b1 < 0xE0 -> 0x80 <= b2 <= 0xBF ->
  utf8_scan (b1 :: b2 :: t)
  = Some ((b1 - 0xC0) * 64 + (b2 - 0x80)) :: utf8_scan t.
Proof. intros H1 H2. decide_scan. Qed.

Lemma utf8_scan_3 (b1 b2 b3 : Z) (t : list Z) :
  0xE0 <= b1 < 0xF0 -> 0x80 <= b2 <= 0xBF -> 0x80 <= b3 <= 0xBF ->
  (b1 = 0xE0 -> 0xA0 <= b2) -> (b1 = 0xED -> b2 < 0xA0) ->
  utf8_scan (b1 :: b2 :: b3 :: t)
  = Some ((b1 - 0xE0) * 4096 + (b2 - 0x80) * 64 + (b3 - 0x80))
    :: utf8_scan t.
Proof. intros H1 H2 H3 H4 H5. decide_scan. Qed.

Lemma utf8_scan_4 (b1 b2 b3 b4 : Z) (t : list Z) :
  0xF0 <= b1 < 0xF5 -> 0x80 <= b2 <= 0xBF -> 0x80 <= b3 <= 0xBF ->
  0x80 <= b4 <= 0xBF ->
  (b1 = 0xF0 -> 0x90 <= b2) -> (b1 = 0xF4 -> b2 < 0x90) ->
  utf8_scan (b1 :: b2 :: b3 :: b4 :: t)
  = Some ((b1 - 0xF0) * 262144 + (b2 - 0x80) * 4096 + (b3 - 0x80) * 64
          + (b4 - 0x80))
    :: utf8_scan t.
Proof. intros H1 H2 H3 H4 H5 H6. decide_scan. Qed.

Lemma is_scalar_value_inv (c : Z) :
  is_scalar_value c = true ->
  0 <= c <= 0x10FFFF /\ (c < 0xD800 \/ 0xDFFF < c).
Proof.
  unfold is_scalar_value.
  rewrite !andb_true_iff, negb_true_iff, andb_false_iff.
  rewrite !Z.leb_le, !Z.leb_gt. tauto.
Qed.

(** The decoder reads back each encoded scalar value. *)
Lemma utf8_scan_encode_char (c : Z) (rest : list Z) :
  is_scalar_value c = true ->
  utf8_scan (utf8_encode_char c ++ rest) = Some c :: utf8_scan rest.
Proof.
  intros H. apply is_scalar_value_inv in H as [[H0 H1] H2].
  unfold utf8_encode_char.
  destruct (Z.ltb_spec c 0x80);
    [|destruct (Z.ltb_spec c 0x800); [|destruct (Z.ltb_spec c 0x10000)]];
    cbn [app].
  - apply utf8_scan_1. lia.
  - rewrite utf8_scan_2; [do 2 f_equal| |];
      Z.to_euclidean_division_equations; lia.
  - rewrite utf8_scan_3; [do 2 f_equal| | | | |];
      Z.to_euclidean_division_equations; lia.
  - rewrite utf8_scan_4; [do 2 f_equal| | | | | |];
      Z.to_euclidean_division_equations; lia.
Qed.

Lemma utf8_encode_char_bytes (c : Z) :
  is_scalar_value c = true ->
  Forall (fun z => 0 <= z < 256) (utf8_encode_char c).
Proof.
  intros H. apply is_scalar_value_inv in H as [[H0 H1] H2].
  unfold utf8_encode_char.
  destruct (Z.ltb_spec c 0x80);
    [|destruct (Z.ltb_spec c 0x800); [|destruct (Z.ltb_spec c 0x10000)]];
    repeat constructor; Z.to_euclidean_division_equations; lia.
Qed.

Lemma utf8_scan_encode (s : pystr) :
  forallb is_scalar_value s = true ->
  utf8_scan (flat_map utf8_encode_char s) = map Some s.
Proof.
  induction s as [|c s IH]; [reflexivity|].
  cbn [forallb flat_map map]. rewrite andb_true_iff. intros [Hc Hs].
  rewrite utf8_scan_encode_char by exact Hc. now rewrite IH.
Qed.

Lemma encoded_bytes_in_range (s : pystr) :
  forallb is_scalar_value s = true ->
  Forall (fun z => 0 <= z < 256) (flat_map utf8_encode_char s).
Proof.
  induction s as [|c s IH]; [constructor|].
  cbn [forallb flat_map]. rewrite andb_true_iff. intros [Hc Hs].
  apply Forall_app. split; [apply utf8_encode_char_bytes; exact Hc | auto].
Qed.

Lemma byte_val_of_Z_list (zs : list Z) :
  Forall (fun z => 0 <= z < 256) zs -> map byte_val (map byte_of_Z zs) = zs.
Proof.
  induction 1 as [|z zs Hz _ IH]; [reflexivity|].
  cbn [map]. now rewrite byte_val_of_Z_small, IH.
Qed.

Lemma utf8_scan_of_encode (s : pystr) :
  forallb is_scalar_value s = true ->
  utf8_scan (map byte_val (utf8_encode s)) = map Some s.
Proof.
  intros H. unfold utf8_encode.
  rewrite byte_val_of_Z_list by (apply encoded_bytes_in_range; exact H).
  apply utf8_scan_encode. exact H.
Qed.

Lemma valid_utf8_encode (s : pystr) :
  forallb is_scalar_value s = true -> valid_utf8 (utf8_encode s) = true.
Proof.
  intros H. unfold valid_utf8. rewrite utf8_scan_of_encode by exact H.
  apply forallb_forall. intros o Hin. apply in_map_iff in Hin as (c & <- & _).
  reflexivity.
Qed.

(** Both error handlers decode an encoded string to itself. *)
Lemma decode_utf8_replace_encode (s : pystr) :
  forallb is_scalar_value s = true -> decode_utf8_replace (utf8_encode s) = s.
Proof.
  intros H. unfold decode_utf8_replace. rewrite utf8_scan_of_encode by exact H.
  rewrite map_map. apply map_id.
Qed.

Lemma decode_utf8_encode (s : pystr) :
  forallb is_scalar_value s = true -> decode_utf8 (utf8_encode s) = Ok s.
Proof.
  intros H. rewrite decode_utf8_valid by (apply valid_utf8_encode; exact H).
  now rewrite decode_utf8_replace_encode.
Qed.

(** *** binary32 *)

Lemma digits2_pos_size (m : positive) : digits2_pos m = Pos.size m.
Proof. induction m; simpl; congruence. Qed.

Lemma size_bounds (m : positive) :
  2 ^ (Zpos (Pos.size m) - 1) <= Zpos m < 2 ^ Zpos (Pos.size m).
Proof.
  pose proof (Pos.size_gt m) as Hgt. pose proof (Pos.size_le m) as Hle.
  assert (E : forall n, Zpos (2 ^ n) = 2 ^ Zpos n)
    by (intros n; now rewrite Pos2Z.inj_pow).
  apply Pos2Z.pos_lt_pos in Hgt. apply Pos2Z.pos_le_pos in Hle.
  rewrite E in Hgt, Hle.
  split; [|exact Hgt].
  replace (2 ^ Zpos (Pos.size m)) with (2 * 2 ^ (Zpos (Pos.size m) - 1)) in Hle.
  - lia.
  - rewrite <- Z.pow_succ_r by lia. f_equal. lia.
Qed.

(** A valid finite binary32 number is subnormal, with the least exponent,
    or normal, with a 24-bit mantissa. *)
Lemma bounded_binary32 (m : positive) (e : Z) :
  bounded 24 128 m e = true ->
  (Zpos m < 2 ^ 23 /\ e = -149)
  \/ (2 ^ 23 <= Zpos m < 2 ^ 24 /\ -149 <= e <= 104).
Proof.
  unfold bounded, canonical_mantissa, fexp, emin.
  rewrite andb_true_iff, Z.eqb_eq, Z.leb_le, digits2_pos_size.
  intros [Hc He]. pose proof (size_bounds m) as [Hlo Hhi].
  destruct (Z_lt_le_dec (Zpos (Pos.size m)) 24) as [Hs|Hs].
  - left. split; [|lia].
    apply Z.lt_le_trans with (1 := Hhi). apply Z.pow_le_mono_r; lia.
  - right. assert (Zpos (Pos.size m) = 24) as E by lia.
    rewrite E in Hlo, Hhi. change (24 - 1) with 23 in Hlo. lia.
Qed.

(** Decoding the bit pattern of a valid binary32 number gives it back. *)
Lemma binary32_of_bits_of_binary32 (x : spec_float) :
  valid_binary 24 128 x = true -> binary32_of_bits (bits_of_binary32 x) = x.
Proof.
  destruct x as [s|s| |s m e]; cbn [valid_binary]; intros H.
  - destruct s; reflexivity.
  - destruct s; reflexivity.
  - reflexivity.
  - apply bounded_binary32 in H.
    unfold binary32_of_bits, bits_of_binary32.
    change (2 ^ 23) with 8388608 in *. change (2 ^ 24) with 16777216 in *.
    change (2 ^ 31) with 2147483648. change (2 ^ 8) with 256.
    destruct H as [[Hm ->]|[Hm He]].
    + destruct (Z.ltb_spec (Zpos m) 8388608); [|lia].
      assert (E1 : ((if s then 2147483648 else 0) + Zpos m) / 8388608 mod 256 = 0)
        by (destruct s; Z.to_euclidean_division_equations; lia).
      assert (E2 : ((if s then 2147483648 else 0) + Zpos m) mod 8388608 = Zpos m)
        by (destruct s; Z.to_euclidean_division_equations; lia).
      assert (E3 : (2147483648 <=? (if s then 2147483648 else 0) + Zpos m) = s)
        by (destruct s; [apply Z.leb_le | apply Z.leb_gt]; lia).
      rewrite E1, E2, E3. cbn [Z.eqb Z.to_pos]. reflexivity.
    + destruct (Z.ltb_spec (Zpos m) 8388608); [lia|].
      set (bits := (if s then 2147483648 else 0) + (e + 150) * 8388608
                   + (Zpos m - 8388608)).
      assert (E1 : bits / 8388608 mod 256 = e + 150)
        by (subst bits; destruct s; Z.to_euclidean_division_equations; lia).
      assert (E2 : bits mod 8388608 = Zpos m - 8388608)
        by (subst bits; destruct s; Z.to_euclidean_division_equations; lia).
      assert (E3 : (2147483648 <=? bits) = s)
        by (subst bits; destruct s; [apply Z.leb_le | apply Z.leb_gt]; lia).
      rewrite E1, E2, E3.
      destruct (Z.eqb_spec (e + 150) 0); [lia|].
      destruct (Z.eqb_spec (e + 150) 255); [lia|].
      replace (Zpos m - 8388608 + 8388608) with (Zpos m) by lia.
      replace (e + 150 - 150) with e by lia. reflexivity.
Qed.

Lemma bits_of_binary32_range (x : spec_float) :
  valid_binary 24 128 x = true -> 0 <= bits_of_binary32 x < 2 ^ 32.
Proof.
  destruct x as [s|s| |s m e]; cbn [valid_binary]; intros H.
  - destruct s; cbn; lia.
  - destruct s; cbn; lia.
  - cbn; lia.
  - apply bounded_binary32 in H. unfold bits_of_binary32.
    change (2 ^ 23) with 8388608 in *. change (2 ^ 24) with 16777216 in *.
    change (2 ^ 31) with 2147483648. change (2 ^ 32) with 4294967296.
    destruct (Z.ltb_spec (Zpos m) 8388608); destruct s; lia.
Qed.

(** *** One encoded entry through the reader *)

Lemma encoded_entry_well_formed (key : pystr) (v : scalar) :
  forallb is_scalar_value key = true ->
  len (utf8_encode key) <= PY_SSIZE_T_MAX ->
  in_range v = true ->
  scalar_entry (encode_entry key v) = true.
Proof.
  intros Hk Hl Hv. unfold scalar_entry, encode_entry, key_ok.
  cbn [e_key e_type e_payload].
  rewrite valid_utf8_encode by exact Hk.
  apply Z.leb_le in Hl. rewrite Hl. cbn [andb].
  destruct v; cbn [type_tag encode_value in_range] in *;
    try reflexivity.
  cbn [Z.leb Z.ltb Z.compare Pos.compare andb].
  apply string_field_ok. apply andb_true_iff in Hv as [_ Hv].
  apply Z.leb_le. exact Hv.
Qed.

Lemma encoded_value_shown (v : scalar) :
  in_range v = true -> keeps_sign v = true ->
  shown_value (type_tag v) (encode_value v) = original v.
Proof.
  destruct v as [n|n|x|b|s|n|n];
    cbn [in_range keeps_sign type_tag encode_value original];
    unfold shown_value, declared_value; cbn [Z.eqb Pos.eqb orb];
    rewrite ?andb_true_iff, ?Z.leb_le, ?Z.ltb_lt; intros Hr Hs.
  - rewrite le_decode_encode by (cbn; lia). reflexivity.
  - rewrite le_decode_encode by (cbn; lia). reflexivity.
  - rewrite le_decode_encode
      by (pose proof (bits_of_binary32_range x Hr); cbn; lia).
    now rewrite binary32_of_bits_of_binary32.
  - destruct b; reflexivity.
  - change (VStr (decode_utf8_replace (drop 8 (string_field (utf8_encode s)))))
      with (shown_value 8 (string_field (utf8_encode s))).
    rewrite shown_string_field, decode_utf8_replace_encode by tauto.
    reflexivity.
  - rewrite le_decode_encode by (cbn; lia). reflexivity.
  - rewrite le_decode_encode by (cbn; lia). reflexivity.
Qed.

(** Encoding a value of any scalar type under a key, negative signed
    integers apart, and reading the file back prints the key and the
    value. *)
Lemma round_trip (version tensor_count : Z) (key : pystr) (v : scalar) :
  0 <= version < 2 ^ 32 -> 0 <= tensor_count < 2 ^ 64 ->
  forallb is_scalar_value key = true ->
  len (utf8_encode key) <= PY_SSIZE_T_MAX ->
  in_range v = true -> keeps_sign v = true ->
  inspect_gguf_raw_f
    (start (header version tensor_count 1 ++ layout (encode_entry key v)))
  = (Ok tt,
     {| unread := []; position := 24 + len (layout (encode_entry key v)) |},
     header_lines version tensor_count 1 ++ [Pair key (original v)]).
Proof.
  intros Hv Ht Hk Hl Hr Hs.
  pose proof (scalar_entries_shown version tensor_count
                [encode_entry key v] [] Hv Ht ltac:(cbn; lia)) as H.
  cbn [forallb flat_map map] in H.
  rewrite encoded_entry_well_formed in H by assumption.
  specialize (H eq_refl). rewrite !app_nil_r in H.
  unfold shown_pair, key_of in H.
  replace (e_key (encode_entry key v)) with (utf8_encode key) in H
    by reflexivity.
  replace (e_type (encode_entry key v)) with (type_tag v) in H by reflexivity.
  replace (e_payload (encode_entry key v)) with (encode_value v) in H
    by reflexivity.
  rewrite encoded_value_shown, decode_utf8_replace_encode in H by assumption.
  exact H.
Qed.

(* ================================================================== *)
(** * Further properties of the raw reader *)

Lemma unpack_uint_ok_length (n : nat) (bs : list byte) (z : Z) :
  unpack_uint n bs = Ok z -> length bs = n.
Proof.
  unfold unpack_uint. destruct (Nat.eqb_spec (length bs) n); [auto|discriminate].
Qed.

Lemma drop_drop {A} (a b : Z) (l : list A) :
  0 <= a -> 0 <= b -> drop a (drop b l) = drop (a + b) l.
Proof.
  revert b. induction l as [|x l IH]; intros b Ha Hb.
  - cbn [drop]. reflexivity.
  - cbn [drop]. destruct (Z.leb_spec b 0).
    + replace b with 0 by lia. rewrite Z.add_0_r. reflexivity.
    + destruct (Z.leb_spec (a + b) 0); [lia|].
      rewrite IH by lia. f_equal. lia.
Qed.

(** Every line of the value dispatch. *)
Lemma read_value_lines (key : pystr) (t : Z) (f : file) :
  match read_value key t f with
  | (Ok (Some _), _, o) => o = []
  | (Ok None, _, o) => length o = 1%nat
  | (Raise _, _, o) => o = []
  end.
Proof.
  unfold read_value.
  repeat match goal with
  | |- context [if ?b then _ else _] => destruct b
  end;
  unfold bind, read, lift, ret, print; cbn [unread position];
  repeat match goal with
  | |- context [if ?b then _ else _] => destruct b; cbn [unread position]
  | |- context [match ?r with Ok _ => _ | Raise _ => _ end] =>
    destruct r; cbn [unread position]
  end; reflexivity.
Qed.

Lemma kv_entry_lines (f : file) :
  match kv_entry f with
  | (Ok _, _, o) => length o = 1%nat
  | (Raise _, _, o) => o = []
  end.
Proof.
  unfold kv_entry.
  unfold bind at 1.
  destruct (read_cases 8 f) as [[e ->]| ->]; [reflexivity|].
  unfold bind at 1. unfold lift at 1.
  destruct (unpack_Q _) as [key_len|e]; [|reflexivity].
  unfold bind at 1.
  match goal with |- context [read key_len ?g] =>
    destruct (read_cases key_len g) as [[e ->]| ->] end; [reflexivity|].
  unfold bind at 1. unfold lift at 1.
  destruct (decode_utf8 _) as [key|e]; [|reflexivity].
  unfold bind at 1.
  match goal with |- context [read 4 ?g] =>
    destruct (read_cases 4 g) as [[e ->]| ->] end; [reflexivity|].
  unfold bind at 1. unfold lift at 1.
  destruct (unpack_I _) as [val_type|e]; [|reflexivity].
  unfold bind at 1.
  match goal with |- context [read_value key val_type ?g] =>
    pose proof (read_value_lines key val_type g) as H;
    destruct (read_value key val_type g) as [[[[v|]|e] f1] o1]
  end; subst; cbn; try reflexivity.
  rewrite app_nil_r. exact H.
Qed.

(** One iteration always returns and prints exactly one line. *)
Lemma kv_iteration_one_line (f : file) :
  exists c f' l, kv_iteration f = (Ok c, f', [l]).
Proof.
  unfold kv_iteration, try_except. pose proof (kv_entry_lines f) as H.
  destruct (kv_entry f) as [[[c|e] f1] o].
  - destruct o as [|l [|l' o]]; try discriminate. eauto.
  - subst o. cbn. eauto.
Qed.

Lemma kv_loop_bounded (n : nat) (f : file) :
  exists f' o, kv_loop n f = (Ok tt, f', o) /\ (length o <= n)%nat.
Proof.
  revert f. induction n as [|n IH]; intros f.
  - exists f, []. split; [reflexivity|cbn; lia].
  - cbn [kv_loop]. unfold bind.
    destruct (kv_iteration_one_line f) as (c & f1 & l & ->).
    destruct c.
    + destruct (IH f1) as (f2 & o & -> & Hl). exists f2, (l :: o).
      split; [reflexivity|cbn; lia].
    + exists f1, [l]. split; [reflexivity|cbn; lia].
Qed.

Lemma take_magic_len (data : list byte) :
  take 4 data = GGUF_MAGIC -> 4 <= len data.
Proof.
  intros H. pose proof (len_take_le 4 data) as L. rewrite H in L.
  exact L.
Qed.

Lemma bytes_eqb_refl (a : list byte) : bytes_eqb a a = true.
Proof. apply bytes_eqb_eq. reflexivity. Qed.

(** X4.  On any file that starts with the magic and holds at least the 24
    bytes of the header, the raw reader returns normally, whatever follows:
    it prints the header fields as the unsigned little-endian values of
    bytes 4-7, 8-15 and 16-23, then at most one line per declared entry. *)
Theorem full_header_always_returns (data : list byte) :
  take 4 data = GGUF_MAGIC -> 24 <= len data ->
  let version := le_decode (take 4 (drop 4 data)) in
  let tensor_count := le_decode (take 8 (drop 8 data)) in
  let kv_count := le_decode (take 8 (drop 16 data)) in
  exists f' o,
    inspect_gguf_raw_f (start data)
    = (Ok tt, f', header_lines version tensor_count kv_count ++ o)
    /\ Z.of_nat (length o) <= kv_count.
Proof.
  intros Hm Hl version tensor_count kv_count.
  unfold inspect_gguf_raw_f, start.
  unfold bind at 1. rewrite read_any by small_read. cbn [unread position].
  rewrite Hm, bytes_eqb_refl. cbn [negb].
  unfold bind at 1. rewrite read_any by small_read. cbn [unread position].
  unfold bind at 1, lift at 1, unpack_I.
  assert (L4 : len (drop 4 data) = len data - 4) by (apply len_drop; lia).
  rewrite unpack_uint_len by (apply len_take; lia).
  unfold bind at 1. rewrite read_any by small_read. cbn [unread position].
  rewrite drop_drop by lia. cbn [Z.add Pos.add Pos.succ].
  assert (L8 : len (drop 8 data) = len data - 8) by (apply len_drop; lia).
  unfold bind at 1, lift at 1, unpack_Q.
  rewrite unpack_uint_len by (apply len_take; lia).
  unfold bind at 1. rewrite read_any by small_read. cbn [unread position].
  rewrite drop_drop by lia. cbn [Z.add Pos.add Pos.succ].
  assert (L16 : len (drop 16 data) = len data - 16) by (apply len_drop; lia).
  unfold bind at 1, lift at 1.
  rewrite unpack_uint_len by (apply len_take; lia).
  fold version tensor_count kv_count.
  unfold bind, print.
  match goal with |- context [kv_loop ?n ?g] =>
    destruct (kv_loop_bounded n g) as (f' & o & Hk & Hb) end.
  exists f', o. split.
  - rewrite Hk. reflexivity.
  - pose proof (le_decode_range (take 8 (drop 16 data))). fold kv_count in H. lia.
Qed.

Lemma unpack_uint_cases (n : nat) (bs : list byte) :
  (unpack_uint n bs = Ok (le_decode bs) /\ len bs = Z.of_nat n)
  \/ (unpack_uint n bs = Raise StructError /\ len bs <> Z.of_nat n).
Proof.
  unfold unpack_uint, len. destruct (Nat.eqb_spec (length bs) n); [left|right];
    split; auto; lia.
Qed.

(** X3.  On a file that starts with the magic and ends inside the header
    (fewer than 24 bytes), the body of the raw reader raises
    [struct.error] before anything is printed: the three header reads
    stand outside the [try]. *)
Theorem cut_header_raises (data : list byte) :
  take 4 data = GGUF_MAGIC -> len data < 24 ->
  exists f', inspect_gguf_raw_f (start data) = (Raise StructError, f', []).
Proof.
  intros Hm Hl. pose proof (take_magic_len data Hm) as H4.
  unfold inspect_gguf_raw_f, start.
  unfold bind at 1. rewrite read_any by small_read. cbn [unread position].
  rewrite Hm, bytes_eqb_refl. cbn [negb].
  assert (L4 : len (drop 4 data) = len data - 4) by (apply len_drop; lia).
  unfold bind at 1. rewrite read_any by small_read. cbn [unread position].
  unfold bind at 1, lift at 1, unpack_I.
  destruct (unpack_uint_cases 4 (take 4 (drop 4 data))) as [[-> E1]|[-> _]];
    [|eauto].
  pose proof (len_take_le 4 (drop 4 data)) as B1.
  unfold bind at 1. rewrite read_any by small_read. cbn [unread position].
  rewrite drop_drop by lia. cbn [Z.add Pos.add Pos.succ].
  assert (L8 : len (drop 8 data) = len data - 8)
    by (apply len_drop; change (Z.of_nat 4) with 4 in E1; lia).
  unfold bind at 1, lift at 1, unpack_Q.
  destruct (unpack_uint_cases 8 (take 8 (drop 8 data))) as [[-> E2]|[-> _]];
    [|eauto].
  pose proof (len_take_le 8 (drop 8 data)) as B2.
  change (Z.of_nat 4) with 4 in E1. change (Z.of_nat 8) with 8 in E2.
  unfold bind at 1. rewrite read_any by small_read. cbn [unread position].
  rewrite drop_drop by lia. cbn [Z.add Pos.add Pos.succ].
  assert (L16 : len (drop 16 data) = len data - 16) by (apply len_drop; lia).
  unfold bind at 1, lift at 1.
  destruct (unpack_uint_cases 8 (take 8 (drop 16 data))) as [[_ E3]|[-> _]];
    [|eauto].
  pose proof (len_take_le 8 (drop 16 data)) as B3.
  change (Z.of_nat 8) with 8 in E3. lia.
Qed.

Lemma value_size_cases (t : Z) :
  0 < value_size t ->
  (t = 4 \/ t = 5 \/ t = 6 \/ t = 7 \/ t = 10 \/ t = 11).
Proof.
  unfold value_size.
  destruct (Z.eqb_spec t 4); [auto|]. destruct (Z.eqb_spec t 5); [auto|].
  destruct (Z.eqb_spec t 6); [auto 6|]. destruct (Z.eqb_spec t 7); [auto 6|].
  destruct (Z.eqb_spec t 10); [auto 7|]. destruct (Z.eqb_spec t 11); [auto 7|].
  cbn. lia.
Qed.

Lemma kv_iteration_short_fixed (kb : list byte) (t : Z) (avail : list byte)
      (p : Z) :
  key_ok kb = true -> len avail < value_size t ->
  kv_iteration
    {| unread := le_encode 8 (len kb) ++ kb ++ le_encode 4 t ++ avail;
       position := p |}
  = (Ok Break, {| unread := []; position := p + 8 + len kb + 4 + len avail |},
     [KVError StructError]).
Proof.
  intros Hk Hs. pose proof (len_nonneg avail) as Hn.
  assert (Hc := value_size_cases t ltac:(lia)).
  unfold kv_iteration, try_except.
  destruct Hc as [ -> | [ -> | [ -> | [ -> | [ -> | -> ]]]]];
    rewrite kv_entry_key by (assumption || lia);
    unfold read_value; cbn [Z.eqb Pos.eqb orb];
    cbn in Hs;
    unfold bind at 1; unfold bind at 1;
    rewrite read_short_small by (lia || small_read);
    unfold lift, unpack_I, unpack_Q, unpack_f, unpack_bool, unpack_uint;
    match goal with
    | |- context [Nat.eqb (length avail) ?n] =>
      destruct (Nat.eqb_spec (length avail) n) as [E|E];
      [unfold len in Hs; rewrite E in Hs; cbn in Hs; lia | reflexivity]
    end.
Qed.

(** X1.  On a well-formed stream whose header declares exactly the N
    scalar entries that follow, the raw reader prints the header lines and
    then N pairs, one per entry and in file order, each value read from the
    bytes of its entry (the integers of tags 4, 5, 10 and 11 all as
    unsigned).  It stops at the end of the last declared entry: whatever
    follows, tensor section or further entries, is left unread. *)
Theorem scalar_stream_pairs (version tensor_count : Z) (es : list entry)
        (trailing : list byte) :
  0 <= version < 2 ^ 32 -> 0 <= tensor_count < 2 ^ 64 -> len es < 2 ^ 64 ->
  forallb scalar_entry es = true ->
  inspect_gguf_raw_f
    (start (header version tensor_count (len es) ++ flat_map layout es
            ++ trailing))
  = (Ok tt,
     {| unread := trailing; position := 24 + len (flat_map layout es) |},
     header_lines version tensor_count (len es) ++ map shown_pair es)
  /\ length (map shown_pair es) = length es.
Proof.
  intros Hv Ht Hk Hes. split; [|apply length_map].
  apply scalar_entries_shown; assumption.
Qed.

(** X5.  When the header declares more entries than the file holds and the
    file ends right after the last well-formed scalar entry, the raw reader
    prints the pairs of the entries that are there and then exactly one
    diagnostic line, for the [struct.error] of the first missing key
    length; the iterations that are left are not run. *)
Theorem declared_count_exceeds_entries
        (version tensor_count kv_count : Z) (es : list entry) :
  0 <= version < 2 ^ 32 -> 0 <= tensor_count < 2 ^ 64 ->
  len es + 1 <= kv_count < 2 ^ 64 ->
  forallb scalar_entry es = true ->
  inspect_gguf_raw_f
    (start (header version tensor_count kv_count ++ flat_map layout es))
  = (Ok tt,
     {| unread := []; position := 24 + len (flat_map layout es) |},
     header_lines version tensor_count kv_count ++ map shown_pair es
     ++ [KVError StructError]).
Proof.
  intros Hv Ht Hk Hes.
  rewrite <- (app_nil_r (flat_map layout es)) at 1.
  apply walk_until_break; try assumption; try lia.
  rewrite kv_iteration_at_eof. now rewrite Z.add_0_r.
Qed.

(** X6.  A value of a fixed-size type (tags 4, 5, 6, 7, 10, 11) that the end
    of the file cuts short is detected, unlike a string: [struct.unpack]
    gets fewer bytes than its format needs, so the entry prints no pair,
    the diagnostic line is printed and the walk ends. *)
Theorem short_fixed_value_detected
        (version tensor_count kv_count : Z) (es : list entry)
        (kb : list byte) (val_type : Z) (avail : list byte) :
  0 <= version < 2 ^ 32 -> 0 <= tensor_count < 2 ^ 64 ->
  len es + 1 <= kv_count < 2 ^ 64 ->
  forallb scalar_entry es = true ->
  key_ok kb = true -> len avail < value_size val_type ->
  inspect_gguf_raw_f
    (start (header version tensor_count kv_count ++ flat_map layout es
            ++ le_encode 8 (len kb) ++ kb ++ le_encode 4 val_type ++ avail))
  = (Ok tt,
     {| unread := [];
        position := 24 + len (flat_map layout es) + 8 + len kb + 4
                    + len avail |},
     header_lines version tensor_count kv_count ++ map shown_pair es
     ++ [KVError StructError]).
Proof.
  intros Hv Ht Hk Hes Hkb Hs.
  apply walk_until_break; try assumption; try lia.
  apply kv_iteration_short_fixed; assumption.
Qed.

(** X2.  A value of any scalar type (u32, i32, f32, bool, string, u64,
    i64) that is not a negative signed integer, stored under a key with the
    documented layout in a one-entry file, is printed by the raw reader as
    that key and that value. *)
Theorem encoded_value_read_back (version tensor_count : Z) (key : pystr)
        (v : scalar) :
  0 <= version < 2 ^ 32 -> 0 <= tensor_count < 2 ^ 64 ->
  forallb is_scalar_value key = true ->
  len (utf8_encode key) <= PY_SSIZE_T_MAX ->
  in_range v = true -> keeps_sign v = true ->
  inspect_gguf_raw_f
    (start (header version tensor_count 1 ++ layout (encode_entry key v)))
  = (Ok tt,
     {| unread := []; position := 24 + len (layout (encode_entry key v)) |},
     header_lines version tensor_count 1 ++ [Pair key (original v)]).
Proof. intros. apply round_trip; assumption. Qed.

(* ================================================================== *)
(** * Further properties of the front end *)

(** The reader construction, when the library raises. *)
Lemma load_reader_raises (E : env) (model_path : string) (e : exn)
      (log : list access) :
  GGUFReader E model_path = Raise e ->
  (touch (LoadReader model_path) ;;
   reader <- lift (GGUFReader E model_path) ;;
   ret (Some reader)) log
  = (Raise e, log ++ [LoadReader model_path], []).
Proof. intros H. unfold bind, touch, lift. rewrite H. reflexivity. Qed.

(** X7.  When the library reader raises anything but a [ValueError] whose
    message mentions the unknown quantization type, [inspect_gguf] prints
    the error and returns: the raw fallback is not taken and the file is
    never opened. *)
Theorem other_reader_error_reported (E : env) (model_path : string) (e : exn) :
  GGUFReader E model_path = Raise e -> takes_fallback e = false ->
  inspect_gguf E model_path []
  = (Ok tt, [LoadReader model_path],
     [Inspecting model_path; ReadError e]).
Proof.
  intros H Hf. unfold inspect_gguf, load_reader.
  unfold bind at 1. cbn [print]. unfold bind at 1. unfold try_except at 1.
  rewrite (load_reader_raises E model_path e [] H).
  destruct e; try reflexivity.
  cbn [takes_fallback] in Hf. unfold quantization_message in Hf.
  rewrite Hf. reflexivity.
Qed.

(** X8.  When the library reader raises the unknown-quantization
    [ValueError] and the file opens, [inspect_gguf] prints its three notice
    lines, then everything the raw reader prints on the file, and returns
    normally; an exception that leaves the raw reader (a header cut short)
    is printed as one more line. *)
Theorem fallback_runs_raw_reader (E : env) (model_path msg : string)
        (data : list byte) :
  GGUFReader E model_path = Raise (ValueError msg) ->
  contains quantization_message msg = true ->
  open_rb E model_path = Ok data ->
  inspect_gguf E model_path []
  = (Ok tt, [LoadReader model_path; OpenFile model_path],
     [Inspecting model_path; UnknownQuantization; AttemptingPatch; FallingBack]
     ++ match inspect_gguf_raw_f (start data) with
        | (Ok _, _, o) => o
        | (Raise patch_e, _, o) => o ++ [CouldNotPatch patch_e]
        end).
Proof.
  intros H Hc Ho. unfold inspect_gguf, load_reader.
  unfold bind at 1. cbn [print]. unfold bind at 1. unfold try_except at 1.
  rewrite (load_reader_raises E model_path _ [] H).
  unfold quantization_message in Hc. rewrite Hc.
  unfold inspect_gguf_raw, try_except, bind, print, touch, lift, ret.
  rewrite Ho. fold (start data).
  destruct (inspect_gguf_raw_f (start data)) as [[[u|patch_e] f'] o].
  - cbn [app]. rewrite !app_nil_r. reflexivity.
  - cbn [app]. rewrite !app_nil_r. reflexivity.
Qed.

(** X9.  When the library reader raises the unknown-quantization
    [ValueError] and the file then cannot be opened, the failure of [open]
    is caught by the handler around the fallback and printed;
    [inspect_gguf] returns normally. *)
Theorem fallback_open_failure_reported (E : env) (model_path msg : string)
        (open_e : exn) :
  GGUFReader E model_path = Raise (ValueError msg) ->
  contains quantization_message msg = true ->
  open_rb E model_path = Raise open_e ->
  inspect_gguf E model_path []
  = (Ok tt, [LoadReader model_path; OpenFile model_path],
     [Inspecting model_path; UnknownQuantization; AttemptingPatch; FallingBack;
      CouldNotPatch open_e]).
Proof.
  intros H Hc Ho. unfold inspect_gguf, load_reader.
  unfold bind at 1. cbn [print]. unfold bind at 1. unfold try_except at 1.
  rewrite (load_reader_raises E model_path _ [] H).
  unfold quantization_message in Hc. rewrite Hc.
  unfold inspect_gguf_raw, try_except, bind, print, touch, lift, ret.
  rewrite Ho. reflexivity.
Qed.

(** ** The report *)

Lemma last_item_last {A} (l : list A) (d : A) :
  l <> [] -> last_item l = Ok (last l d).
Proof.
  destruct l as [|x l] using rev_ind; [congruence|]. intros _.
  unfold last_item. rewrite rev_app_distr, last_last. reflexivity.
Qed.

Lemma last_item_has_parts (kv : pystr * ReaderField) :
  has_parts kv = true ->
  last_item (parts (snd kv))
  = Ok (last (parts (snd kv)) {| itemsize := 0; items := [] |}).
Proof.
  unfold has_parts. intros H. apply last_item_last.
  destruct (parts (snd kv)); [discriminate|congruence].
Qed.

Lemma list_fields_from {St} (fs : list (pystr * ReaderField)) (i : Z) (s : St) :
  forallb has_parts fs = true ->
  list_fields i fs s
  = (Ok tt, s, map field_line (firstn (Z.to_nat (20 - i)) fs)).
Proof.
  revert i. induction fs as [|[k field] fs IH]; intros i H.
  - cbn [list_fields]. now rewrite firstn_nil.
  - cbn [forallb] in H. apply andb_true_iff in H as [Hp Hfs].
    cbn [list_fields]. destruct (Z.leb_spec 20 i).
    + replace (Z.to_nat (20 - i)) with O by lia. reflexivity.
    + replace (Z.to_nat (20 - i)) with (S (Z.to_nat (20 - (i + 1)))) by lia.
      cbn [firstn map].
      pose proof (last_item_has_parts (k, field) Hp) as Hl. cbn [snd] in Hl.
      unfold bind at 1, lift at 1. rewrite Hl.
      unfold bind at 1, print at 1. rewrite IH by exact Hfs.
      reflexivity.
Qed.

Lemma list_tensors_from {St} (ts : list ReaderTensor) (i : Z) (s : St) :
  list_tensors i ts s
  = (Ok tt, s, map tensor_line (firstn (Z.to_nat (10 - i)) ts)).
Proof.
  revert i. induction ts as [|t ts IH]; intros i.
  - cbn [list_tensors]. now rewrite firstn_nil.
  - cbn [list_tensors]. destruct (Z.leb_spec 10 i).
    + replace (Z.to_nat (10 - i)) with O by lia. reflexivity.
    + replace (Z.to_nat (10 - i)) with (S (Z.to_nat (10 - (i + 1)))) by lia.
      cbn [firstn map]. unfold bind at 1, print at 1. rewrite IH.
      reflexivity.
Qed.

(** X11.  The metadata listing prints the fields in dictionary order and
    stops after the first 20: when every field has a part, it prints
    exactly the lines of the first 20 fields and returns. *)
Theorem metadata_listing_first_20 {St} (fs : list (pystr * ReaderField)) (s : St) :
  forallb has_parts fs = true ->
  list_fields 0 fs s = (Ok tt, s, map field_line (firstn 20 fs))
  /\ (length (map field_line (firstn 20 fs)) <= 20)%nat.
Proof.
  intros H. split.
  - apply (list_fields_from fs 0 s H).
  - rewrite length_map, length_firstn. lia.
Qed.

(** X12.  The tensor listing prints the tensors in order and stops after
    the first 10; it never raises. *)
Theorem tensor_listing_first_10 {St} (ts : list ReaderTensor) (s : St) :
  list_tensors 0 ts s = (Ok tt, s, map tensor_line (firstn 10 ts))
  /\ (length (map tensor_line (firstn 10 ts)) <= 10)%nat.
Proof.
  split.
  - apply (list_tensors_from ts 0 s).
  - rewrite length_map, length_firstn. lia.
Qed.

Lemma architecture_of_ok {St} (reader : Reader) (fld : ReaderField)
      (a : ndarray) (arch : pystr) (s : St) :
  get_field reader (pystr_of_string "general.architecture") = Some fld ->
  last_item (parts fld) = Ok a ->
  decode_utf8 (tobytes a) = Ok arch ->
  architecture_of reader s = (Ok arch, s, []).
Proof.
  intros H1 H2 H3. unfold architecture_of, bind, lift, parts_of.
  rewrite H1, H2, H3. reflexivity.
Qed.

(** The report around the layer lookup: what the guarded block printed is
    all that varies. *)
Lemma report_shape {St} (reader : Reader) (arch : pystr) (s : St)
      (layer : list line) :
  (forall s' : St, architecture_of reader s' = (Ok arch, s', [])) ->
  forallb has_parts (fields reader) = true ->
  try_except
    (arch' <- architecture_of reader ;;
     match get_field reader (arch' ++ pystr_of_string ".block_count") with
     | Some fld =>
       p <- lift (last_item (parts fld)) ;;
       n <- lift (first_item (items p)) ;;
       print (Layers n)
     | None => ret tt
     end)
    (fun _ => print NoLayerCount) s = (Ok tt, s, layer) ->
  report reader s
  = (Ok tt, s,
     [ArchitectureHeading; Architecture arch] ++ layer ++ [MetadataFirst20]
     ++ map field_line (firstn 20 (fields reader)) ++ [TensorHeading]
     ++ map tensor_line (firstn 10 (tensors reader))).
Proof.
  intros Ha Hp Hl. unfold report.
  unfold bind at 1, print at 1. unfold bind at 1. rewrite Ha.
  unfold bind at 1, print at 1. unfold bind at 1. rewrite Hl.
  unfold bind at 1, print at 1. unfold bind at 1.
  rewrite (list_fields_from (fields reader) 0 s Hp).
  unfold bind at 1, print at 1.
  rewrite (list_tensors_from (tensors reader) 0 s).
  cbn [app]. rewrite ?app_nil_r. reflexivity.
Qed.

Lemma load_reader_ok (E : env) (model_path : string) (reader : Reader)
      (log : list access) :
  GGUFReader E model_path = Ok reader ->
  load_reader E model_path log
  = (Ok (Some reader), log ++ [LoadReader model_path], []).
Proof.
  intros H. unfold load_reader, try_except, bind, touch, lift, ret.
  rewrite H. reflexivity.
Qed.

(** X13.  When the library reader is built, the architecture string
    decodes and the file has no [<architecture>.block_count] key, the
    inspection prints the architecture, no line about layers at all, the
    first 20 fields and the first 10 tensors, and returns; the file is
    never opened by the script itself. *)
Theorem inspection_without_block_count
        (E : env) (model_path : string) (reader : Reader)
        (fld : ReaderField) (a : ndarray) (arch : pystr) :
  GGUFReader E model_path = Ok reader ->
  get_field reader (pystr_of_string "general.architecture") = Some fld ->
  last_item (parts fld) = Ok a ->
  decode_utf8 (tobytes a) = Ok arch ->
  get_field reader (arch ++ pystr_of_string ".block_count") = None ->
  forallb has_parts (fields reader) = true ->
  inspect_gguf E model_path []
  = (Ok tt, [LoadReader model_path],
     [Inspecting model_path; ArchitectureHeading; Architecture arch;
      MetadataFirst20]
     ++ map field_line (firstn 20 (fields reader)) ++ [TensorHeading]
     ++ map tensor_line (firstn 10 (tensors reader))).
Proof.
  intros Hr Hf Hl Hd Hb Hp. unfold inspect_gguf.
  unfold bind at 1, print at 1. unfold bind at 1.
  rewrite (load_reader_ok E model_path reader [] Hr).
  rewrite (report_shape reader arch _ []); [reflexivity | | exact Hp |].
  - intros s'. eapply architecture_of_ok; eassumption.
  - unfold try_except, bind.
    rewrite (architecture_of_ok reader fld a arch _ Hf Hl Hd).
    rewrite Hb. reflexivity.
Qed.

(** X14.  When the [<architecture>.block_count] field is present, the
    report prints the first element of its last part as the layer count,
    between the architecture line and the metadata listing. *)
Theorem report_prints_layer_count {St}
        (reader : Reader) (fld bc : ReaderField) (a p : ndarray)
        (arch : pystr) (n : Z) (s : St) :
  get_field reader (pystr_of_string "general.architecture") = Some fld ->
  last_item (parts fld) = Ok a ->
  decode_utf8 (tobytes a) = Ok arch ->
  get_field reader (arch ++ pystr_of_string ".block_count") = Some bc ->
  last_item (parts bc) = Ok p ->
  first_item (items p) = Ok n ->
  forallb has_parts (fields reader) = true ->
  report reader s
  = (Ok tt, s,
     [ArchitectureHeading; Architecture arch; Layers n; MetadataFirst20]
     ++ map field_line (firstn 20 (fields reader)) ++ [TensorHeading]
     ++ map tensor_line (firstn 10 (tensors reader))).
Proof.
  intros Hf Hl Hd Hb Hbl Hbn Hp.
  rewrite (report_shape reader arch s [Layers n]); [reflexivity | | exact Hp |].
  - intros s'. eapply architecture_of_ok; eassumption.
  - unfold try_except, bind.
    rewrite (architecture_of_ok reader fld a arch _ Hf Hl Hd).
    rewrite Hb. unfold lift, print. rewrite Hbl, Hbn. reflexivity.
Qed.

(** X15.  When the last part of the [<architecture>.block_count] field is
    empty, the indexing error is caught by the bare [except]: the report
    prints the could-not-determine line and goes on with the listings. *)
Theorem report_survives_empty_block_count {St}
        (reader : Reader) (fld bc : ReaderField) (a p : ndarray)
        (arch : pystr) (s : St) :
  get_field reader (pystr_of_string "general.architecture") = Some fld ->
  last_item (parts fld) = Ok a ->
  decode_utf8 (tobytes a) = Ok arch ->
  get_field reader (arch ++ pystr_of_string ".block_count") = Some bc ->
  last_item (parts bc) = Ok p ->
  items p = [] ->
  forallb has_parts (fields reader) = true ->
  report reader s
  = (Ok tt, s,
     [ArchitectureHeading; Architecture arch; NoLayerCount; MetadataFirst20]
     ++ map field_line (firstn 20 (fields reader)) ++ [TensorHeading]
     ++ map tensor_line (firstn 10 (tensors reader))).
Proof.
  intros Hf Hl Hd Hb Hbl Hbn Hp.
  rewrite (report_shape reader arch s [NoLayerCount]);
    [reflexivity | | exact Hp |].
  - intros s'. eapply architecture_of_ok; eassumption.
  - unfold try_except, bind.
    rewrite (architecture_of_ok reader fld a arch _ Hf Hl Hd).
    rewrite Hb. unfold lift, print. rewrite Hbl, Hbn. reflexivity.
Qed.

(** X16.  When the library reader is built and the bytes of the
    [general.architecture] value are not valid UTF-8, the strict decoding
    of source line 55 raises [UnicodeDecodeError], which leaves
    [inspect_gguf] after the heading line. *)
Theorem undecodable_architecture_escapes
        (E : env) (model_path : string) (reader : Reader)
        (fld : ReaderField) (a : ndarray) :
  GGUFReader E model_path = Ok reader ->
  get_field reader (pystr_of_string "general.architecture") = Some fld ->
  last_item (parts fld) = Ok a ->
  valid_utf8 (tobytes a) = false ->
  inspect_gguf E model_path []
  = (Raise UnicodeDecodeError, [LoadReader model_path],
     [Inspecting model_path; ArchitectureHeading]).
Proof.
  intros Hr Hf Hl Hv. unfold inspect_gguf.
  unfold bind at 1, print at 1. unfold bind at 1.
  rewrite (load_reader_ok E model_path reader [] Hr).
  unfold report. unfold bind at 1, print at 1. unfold bind at 1.
  unfold architecture_of, bind, lift, parts_of. rewrite Hf, Hl.
  rewrite decode_utf8_invalid by exact Hv. reflexivity.
Qed.

(** X10.  When the path exists and the construction of the library
    reader raises, whatever the exception, the script returns normally:
    with or without the raw fallback, and whether or not the fallback
    itself raises. *)
Theorem reader_failure_never_escapes
        (E : env) (script target_path : string) (more : list string) (e : exn) :
  path_exists E target_path = true ->
  GGUFReader E target_path = Raise e ->
  exists log out,
    main E (script :: target_path :: more) [] = (Ok tt, log, out).
Proof.
  intros Hx Hr. unfold main.
  assert (Hlen : (1 <? len (script :: target_path :: more)) = true).
  { apply Z.ltb_lt. rewrite !len_cons. pose proof (len_nonneg more). lia. }
  rewrite Hlen. cbn [nth]. rewrite ret_then.
  unfold bind at 1. cbn [touch]. rewrite Hx.
  destruct (load_reader_failure E target_path e ([] ++ [StatPath target_path]) Hr)
    as (log' & out & Hl).
  unfold inspect_gguf. unfold bind at 1. cbn [print]. unfold bind at 1.
  rewrite Hl. cbn. eauto.
Qed.

(** X17.  Without a command-line argument the script announces the
    built-in default path and tests it; when it does not exist, the two
    not-found lines follow and nothing is read. *)
Theorem missing_default_path_reported (E : env) (script : string) :
  path_exists E default_path = false ->
  main E [script] []
  = (Ok tt, [StatPath default_path],
     [UsingDefault default_path; FileNotFound default_path; PleaseProvide]).
Proof. apply missing_default_path_not_read. Qed.

(** ** More on the raw reader *)

Lemma kv_iteration_short_array (kb avail : list byte) (p : Z) :
  key_ok kb = true -> len avail < 12 ->
  kv_iteration
    {| unread := le_encode 8 (len kb) ++ kb ++ le_encode 4 9 ++ avail;
       position := p |}
  = (Ok Break, {| unread := []; position := p + 8 + len kb + 4 + len avail |},
     [KVError StructError]).
Proof.
  intros Hk Hs. pose proof (len_nonneg avail) as Hn.
  unfold kv_iteration, try_except.
  rewrite kv_entry_key by (assumption || lia).
  unfold read_value. cbn [Z.eqb Pos.eqb orb].
  unfold bind at 1. unfold bind at 1.
  rewrite read_any by small_read. cbn [unread position].
  unfold bind at 1, lift at 1, unpack_I.
  destruct (unpack_uint_cases 4 (take 4 avail)) as [[-> E1]|[-> N1]].
  - change (Z.of_nat 4) with 4 in E1.
    assert (L : len (drop 4 avail) = len avail - 4).
    { apply len_drop. pose proof (len_take_le 4 avail). lia. }
    unfold bind at 1. rewrite read_short_small by (lia || small_read).
    unfold bind at 1, lift at 1, unpack_Q.
    rewrite unpack_uint_short by (unfold len in *; lia).
    rewrite E1, L. unfold bind, print, ret. cbn [app]. same_offset.
  - change (Z.of_nat 4) with 4 in N1.
    assert (La : len avail < 4).
    { destruct (Z_lt_le_dec (len avail) 4) as [?|G]; [assumption|].
      rewrite len_take in N1 by lia. lia. }
    rewrite take_all, drop_all by lia. reflexivity.
Qed.

(** X18.  An array entry (tag 9) whose element type or element count is cut
    short by the end of the file prints no placeholder: the read of the
    array header raises [struct.error], the diagnostic line is printed and
    the walk ends. *)
Theorem short_array_header_detected
        (version tensor_count kv_count : Z) (es : list entry)
        (kb avail : list byte) :
  0 <= version < 2 ^ 32 -> 0 <= tensor_count < 2 ^ 64 ->
  len es + 1 <= kv_count < 2 ^ 64 ->
  forallb scalar_entry es = true ->
  key_ok kb = true -> len avail < 12 ->
  inspect_gguf_raw_f
    (start (header version tensor_count kv_count ++ flat_map layout es
            ++ le_encode 8 (len kb) ++ kb ++ le_encode 4 9 ++ avail))
  = (Ok tt,
     {| unread := [];
        position := 24 + len (flat_map layout es) + 8 + len kb + 4
                    + len avail |},
     header_lines version tensor_count kv_count ++ map shown_pair es
     ++ [KVError StructError]).
Proof.
  intros Hv Ht Hk Hes Hkb Hs.
  apply walk_until_break; try assumption; try lia.
  apply kv_iteration_short_array; assumption.
Qed.

(** X19.  The version and the tensor count of the header are printed and
    nothing else: no version is rejected, and two files that differ only in
    these two fields are walked alike, with the same outcome, the same
    final offset and the same lines after the header lines. *)
Theorem version_and_tensor_count_only_printed
        (version version' tensor_count tensor_count' kv_count : Z)
        (body : list byte) :
  0 <= version < 2 ^ 32 -> 0 <= version' < 2 ^ 32 ->
  0 <= tensor_count < 2 ^ 64 -> 0 <= tensor_count' < 2 ^ 64 ->
  0 <= kv_count < 2 ^ 64 ->
  exists r f' o,
    inspect_gguf_raw_f (start (header version tensor_count kv_count ++ body))
    = (r, f', header_lines version tensor_count kv_count ++ o)
    /\ inspect_gguf_raw_f
         (start (header version' tensor_count' kv_count ++ body))
       = (r, f', header_lines version' tensor_count' kv_count ++ o).
Proof.
  intros Hv Hv' Ht Ht' Hk.
  rewrite !inspect_gguf_raw_f_header by assumption.
  destruct (kv_loop _ _) as [[r f'] o]. exists r, f', o. split; reflexivity.
Qed.

End Interpreter.

(* ================================================================== *)
(** * Sample runs

    Each statement above that has a hypothesis, applied to a concrete
    file on a machine that grants buffers up to [SAMPLE_ALLOC_MAX]. *)

Lemma array_entry_ends_walk_witness :
  inspect_gguf_raw_f SAMPLE_ALLOC_MAX
    (start (header 3 0 3
            ++ flat_map layout
                 [ {| e_key := [x61]; e_type := 4;
                      e_payload := [x2a; x00; x00; x00] |} ]
            ++ le_encode 8 (len [x62]) ++ [x62] ++ le_encode 4 9
            ++ le_encode 4 8 ++ le_encode 8 2 ++ [x01; x02; x03]))
  = (Ok tt, {| unread := [x01; x02; x03]; position := 66 |},
     [RawReadMode; GGUFVersion 3; TensorCount 0; KVCount 3; MetadataHeading;
      Pair [97] (VInt 42); ArrayStop [98] 2 8]).
Proof.
  exact (proj1 (array_entry_ends_walk SAMPLE_ALLOC_MAX 3 0 3
           [ {| e_key := [x61]; e_type := 4;
                e_payload := [x2a; x00; x00; x00] |} ]
           [x62] 8 2 [x01; x02; x03]
           ltac:(lia) ltac:(lia) ltac:(vm_compute; intuition congruence)
           eq_refl eq_refl ltac:(lia) ltac:(lia))).
Defined.

Lemma bad_magic_rejected_witness :
  inspect_gguf_raw_f SAMPLE_ALLOC_MAX (start [x47; x47; x4d; x4c; x03; x00; x00; x00])
  = (Ok tt, {| unread := [x03; x00; x00; x00]; position := 4 |}, [BadMagic]).
Proof.
  exact (proj1 (bad_magic_rejected SAMPLE_ALLOC_MAX [x47; x47; x4d; x4c; x03; x00; x00; x00]
                  ltac:(discriminate))).
Defined.

Lemma unknown_type_ends_walk_witness :
  inspect_gguf_raw_f SAMPLE_ALLOC_MAX
    (start (header 3 0 2
            ++ flat_map layout
                 [ {| e_key := [x61]; e_type := 7; e_payload := [x01] |} ]
            ++ le_encode 8 (len [x62]) ++ [x62] ++ le_encode 4 12
            ++ [x00; x00; x00; x00; x00; x00; xf0; x3f]))
  = (Ok tt,
     {| unread := [x00; x00; x00; x00; x00; x00; xf0; x3f]; position := 51 |},
     [RawReadMode; GGUFVersion 3; TensorCount 0; KVCount 2; MetadataHeading;
      Pair [97] (VBool true); UnknownTypeStop [98] 12]).
Proof.
  exact (unknown_type_ends_walk SAMPLE_ALLOC_MAX 3 0 2
           [ {| e_key := [x61]; e_type := 7; e_payload := [x01] |} ]
           [x62] 12 [x00; x00; x00; x00; x00; x00; xf0; x3f]
           ltac:(lia) ltac:(lia) ltac:(vm_compute; intuition congruence)
           eq_refl eq_refl ltac:(lia) eq_refl).
Defined.

Lemma invalid_key_ends_walk_witness :
  inspect_gguf_raw_f SAMPLE_ALLOC_MAX
    (start (header 3 0 2
            ++ flat_map layout
                 [ {| e_key := [x61]; e_type := 7; e_payload := [x00] |} ]
            ++ le_encode 8 (len [xff; x62]) ++ [xff; x62]
            ++ le_encode 4 4 ++ [x07; x00; x00; x00]))
  = (Ok tt,
     {| unread := le_encode 4 4 ++ [x07; x00; x00; x00]; position := 48 |},
     [RawReadMode; GGUFVersion 3; TensorCount 0; KVCount 2; MetadataHeading;
      Pair [97] (VBool false); KVError UnicodeDecodeError]).
Proof.
  exact (invalid_key_ends_walk SAMPLE_ALLOC_MAX 3 0 2
           [ {| e_key := [x61]; e_type := 7; e_payload := [x00] |} ]
           [xff; x62] (le_encode 4 4 ++ [x07; x00; x00; x00])
           ltac:(lia) ltac:(lia) ltac:(vm_compute; intuition congruence)
           eq_refl eq_refl ltac:(vm_compute; congruence)).
Defined.


Lemma missing_path_not_read_witness :
  main SAMPLE_ALLOC_MAX bare_env ["inspect_architecture.py"; "absent.gguf"]%string []
  = (Ok tt, [StatPath "absent.gguf"],
     [FileNotFound "absent.gguf"; PleaseProvide]).
Proof.
  exact (missing_path_not_read SAMPLE_ALLOC_MAX bare_env "inspect_architecture.py"
           "absent.gguf" [] eq_refl).
Defined.

Lemma full_header_always_returns_witness :
  exists f' o,
    inspect_gguf_raw_f SAMPLE_ALLOC_MAX
      (start (GGUF_MAGIC ++ le_encode 4 3 ++ le_encode 8 0 ++ le_encode 8 2
              ++ [xff]))
    = (Ok tt, f', header_lines 3 0 2 ++ o)
    /\ Z.of_nat (length o) <= 2.
Proof.
  exact (full_header_always_returns SAMPLE_ALLOC_MAX
           (GGUF_MAGIC ++ le_encode 4 3 ++ le_encode 8 0 ++ le_encode 8 2
            ++ [xff])
           eq_refl ltac:(vm_compute; congruence)).
Defined.

Lemma cut_header_raises_witness :
  exists f',
    inspect_gguf_raw_f SAMPLE_ALLOC_MAX (start (GGUF_MAGIC ++ le_encode 4 3 ++ [x01; x00]))
    = (Raise StructError, f', []).
Proof.
  exact (cut_header_raises SAMPLE_ALLOC_MAX (GGUF_MAGIC ++ le_encode 4 3 ++ [x01; x00])
           eq_refl ltac:(reflexivity)).
Defined.

Lemma scalar_stream_pairs_witness :
  inspect_gguf_raw_f SAMPLE_ALLOC_MAX
    (start (header 3 1 2
            ++ flat_map layout
                 [ {| e_key := [x61]; e_type := 5;
                      e_payload := [xfe; xff; xff; xff] |};
                   {| e_key := [x62]; e_type := 7; e_payload := [x02] |} ]
            ++ [x09; x09]))
  = (Ok tt, {| unread := [x09; x09]; position := 55 |},
     [RawReadMode; GGUFVersion 3; TensorCount 1; KVCount 2; MetadataHeading;
      Pair [97] (VInt 4294967294); Pair [98] (VBool true)]).
Proof.
  exact (proj1 (scalar_stream_pairs SAMPLE_ALLOC_MAX 3 1
           [ {| e_key := [x61]; e_type := 5;
                e_payload := [xfe; xff; xff; xff] |};
             {| e_key := [x62]; e_type := 7; e_payload := [x02] |} ]
           [x09; x09]
           ltac:(lia) ltac:(lia) ltac:(vm_compute; congruence) eq_refl)).
Defined.

Lemma declared_count_exceeds_entries_witness :
  inspect_gguf_raw_f SAMPLE_ALLOC_MAX
    (start (header 3 0 1000
            ++ flat_map layout
                 [ {| e_key := [x61]; e_type := 4;
                      e_payload := [x01; x00; x00; x00] |} ]))
  = (Ok tt, {| unread := []; position := 41 |},
     [RawReadMode; GGUFVersion 3; TensorCount 0; KVCount 1000;
      MetadataHeading; Pair [97] (VInt 1); KVError StructError]).
Proof.
  exact (declared_count_exceeds_entries SAMPLE_ALLOC_MAX 3 0 1000
           [ {| e_key := [x61]; e_type := 4;
                e_payload := [x01; x00; x00; x00] |} ]
           ltac:(lia) ltac:(lia) ltac:(vm_compute; intuition congruence)
           eq_refl).
Defined.

Lemma short_fixed_value_detected_witness :
  inspect_gguf_raw_f SAMPLE_ALLOC_MAX
    (start (header 3 0 1 ++ flat_map layout []
            ++ le_encode 8 (len [x6e]) ++ [x6e] ++ le_encode 4 10
            ++ [x01; x02; x03]))
  = (Ok tt, {| unread := []; position := 40 |},
     [RawReadMode; GGUFVersion 3; TensorCount 0; KVCount 1; MetadataHeading;
      KVError StructError]).
Proof.
  exact (short_fixed_value_detected SAMPLE_ALLOC_MAX 3 0 1 [] [x6e] 10 [x01; x02; x03]
           ltac:(lia) ltac:(lia) ltac:(vm_compute; intuition congruence)
           eq_refl eq_refl ltac:(reflexivity)).
Defined.

Lemma encoded_value_read_back_witness :
  inspect_gguf_raw_f SAMPLE_ALLOC_MAX
    (start (header 3 0 1
            ++ layout (encode_entry [233; 8364]
                         (F32 (S754_finite true 12582912 (-23))))))
  = (Ok tt, {| unread := []; position := 45 |},
     [RawReadMode; GGUFVersion 3; TensorCount 0; KVCount 1; MetadataHeading;
      Pair [233; 8364] (VFloat (S754_finite true 12582912 (-23)))]).
Proof.
  exact (encoded_value_read_back SAMPLE_ALLOC_MAX 3 0 [233; 8364]
           (F32 (S754_finite true 12582912 (-23)))
           ltac:(lia) ltac:(lia) eq_refl ltac:(vm_compute; congruence)
           eq_refl eq_refl).
Defined.

Lemma other_reader_error_reported_witness :
  inspect_gguf SAMPLE_ALLOC_MAX (library_env (Raise (OSError "Permission denied")) (Ok []))
               "m.gguf" []
  = (Ok tt, [LoadReader "m.gguf"],
     [Inspecting "m.gguf"; ReadError (OSError "Permission denied")]).
Proof.
  exact (other_reader_error_reported SAMPLE_ALLOC_MAX
           (library_env (Raise (OSError "Permission denied")) (Ok []))
           "m.gguf" (OSError "Permission denied") eq_refl eq_refl).
Defined.

Lemma fallback_runs_raw_reader_witness :
  inspect_gguf SAMPLE_ALLOC_MAX
    (library_env (Raise (ValueError "39 is not a valid GGMLQuantizationType"))
                 (Ok (header 3 1 0)))
    "m.gguf" []
  = (Ok tt, [LoadReader "m.gguf"; OpenFile "m.gguf"],
     [Inspecting "m.gguf"; UnknownQuantization; AttemptingPatch; FallingBack;
      RawReadMode; GGUFVersion 3; TensorCount 1; KVCount 0; MetadataHeading]).
Proof.
  exact (fallback_runs_raw_reader SAMPLE_ALLOC_MAX
           (library_env
              (Raise (ValueError "39 is not a valid GGMLQuantizationType"))
              (Ok (header 3 1 0)))
           "m.gguf" "39 is not a valid GGMLQuantizationType" (header 3 1 0)
           eq_refl eq_refl eq_refl).
Defined.

Lemma fallback_open_failure_reported_witness :
  inspect_gguf SAMPLE_ALLOC_MAX
    (library_env (Raise (ValueError "39 is not a valid GGMLQuantizationType"))
                 (Raise (OSError "Permission denied")))
    "m.gguf" []
  = (Ok tt, [LoadReader "m.gguf"; OpenFile "m.gguf"],
     [Inspecting "m.gguf"; UnknownQuantization; AttemptingPatch; FallingBack;
      CouldNotPatch (OSError "Permission denied")]).
Proof.
  exact (fallback_open_failure_reported SAMPLE_ALLOC_MAX
           (library_env
              (Raise (ValueError "39 is not a valid GGMLQuantizationType"))
              (Raise (OSError "Permission denied")))
           "m.gguf" "39 is not a valid GGMLQuantizationType"
           (OSError "Permission denied") eq_refl eq_refl eq_refl).
Defined.

Lemma reader_failure_never_escapes_witness :
  exists log out,
    main SAMPLE_ALLOC_MAX (library_env
            (Raise (ValueError "39 is not a valid GGMLQuantizationType"))
            (Ok [x47]))
         ["inspect_architecture.py"; "m.gguf"]%string []
    = (Ok tt, log, out).
Proof.
  exact (reader_failure_never_escapes SAMPLE_ALLOC_MAX
           (library_env
              (Raise (ValueError "39 is not a valid GGMLQuantizationType"))
              (Ok [x47]))
           "inspect_architecture.py" "m.gguf" []
           (ValueError "39 is not a valid GGMLQuantizationType")
           eq_refl eq_refl).
Defined.

Lemma metadata_listing_first_20_witness :
  list_fields 0 (fields (sample_reader [108; 108] [32])) tt
  = (Ok tt, tt,
     map field_line (firstn 20 (fields (sample_reader [108; 108] [32]))))
  /\ Nat.le (length (map field_line
                       (firstn 20 (fields (sample_reader [108; 108] [32])))))
            20.
Proof.
  exact (metadata_listing_first_20
           (fields (sample_reader [108; 108] [32])) tt eq_refl).
Defined.

Lemma inspection_without_block_count_witness :
  inspect_gguf SAMPLE_ALLOC_MAX (library_env (Ok (sample_reader [103; 112] [24])) (Ok []))
               "m.gguf" []
  = (Ok tt, [LoadReader "m.gguf"],
     [Inspecting "m.gguf"; ArchitectureHeading; Architecture [103; 112];
      MetadataFirst20]
     ++ map field_line (firstn 20 (fields (sample_reader [103; 112] [24])))
     ++ [TensorHeading]
     ++ map tensor_line (firstn 10 (tensors (sample_reader [103; 112] [24])))).
Proof.
  exact (inspection_without_block_count SAMPLE_ALLOC_MAX
           (library_env (Ok (sample_reader [103; 112] [24])) (Ok []))
           "m.gguf" (sample_reader [103; 112] [24])
           (snd (string_reader_field "general.architecture" [103; 112]))
           {| itemsize := 1; items := [103; 112] |} [103; 112]
           eq_refl eq_refl eq_refl eq_refl eq_refl eq_refl).
Defined.

Lemma report_prints_layer_count_witness :
  report (sample_reader [108; 108] [32]) tt
  = (Ok tt, tt,
     [ArchitectureHeading; Architecture [108; 108]; Layers 32; MetadataFirst20]
     ++ map field_line (firstn 20 (fields (sample_reader [108; 108] [32])))
     ++ [TensorHeading]
     ++ map tensor_line (firstn 10 (tensors (sample_reader [108; 108] [32])))).
Proof.
  exact (report_prints_layer_count
           (sample_reader [108; 108] [32])
           (snd (string_reader_field "general.architecture" [108; 108]))
           {| name := pystr_of_string "ll.block_count";
              parts := [ {| itemsize := 4; items := [32] |} ] |}
           {| itemsize := 1; items := [108; 108] |}
           {| itemsize := 4; items := [32] |} [108; 108] 32 tt
           eq_refl eq_refl eq_refl eq_refl eq_refl eq_refl eq_refl).
Defined.

Lemma report_survives_empty_block_count_witness :
  report (sample_reader [108; 108] []) tt
  = (Ok tt, tt,
     [ArchitectureHeading; Architecture [108; 108]; NoLayerCount;
      MetadataFirst20]
     ++ map field_line (firstn 20 (fields (sample_reader [108; 108] [])))
     ++ [TensorHeading]
     ++ map tensor_line (firstn 10 (tensors (sample_reader [108; 108] [])))).
Proof.
  exact (report_survives_empty_block_count
           (sample_reader [108; 108] [])
           (snd (string_reader_field "general.architecture" [108; 108]))
           {| name := pystr_of_string "ll.block_count";
              parts := [ {| itemsize := 4; items := [] |} ] |}
           {| itemsize := 1; items := [108; 108] |}
           {| itemsize := 4; items := [] |} [108; 108] tt
           eq_refl eq_refl eq_refl eq_refl eq_refl eq_refl eq_refl).
Defined.

Lemma undecodable_architecture_escapes_witness :
  inspect_gguf SAMPLE_ALLOC_MAX (library_env (Ok (sample_reader [108; 255] [32])) (Ok []))
               "m.gguf" []
  = (Raise UnicodeDecodeError, [LoadReader "m.gguf"],
     [Inspecting "m.gguf"; ArchitectureHeading]).
Proof.
  exact (undecodable_architecture_escapes SAMPLE_ALLOC_MAX
           (library_env (Ok (sample_reader [108; 255] [32])) (Ok []))
           "m.gguf" (sample_reader [108; 255] [32])
           (snd (string_reader_field "general.architecture" [108; 255]))
           {| itemsize := 1; items := [108; 255] |}
           eq_refl eq_refl eq_refl eq_refl).
Defined.

Lemma missing_default_path_reported_witness :
  main SAMPLE_ALLOC_MAX bare_env ["inspect_architecture.py"%string] []
  = (Ok tt, [StatPath default_path],
     [UsingDefault default_path; FileNotFound default_path; PleaseProvide]).
Proof.
  exact (missing_default_path_reported SAMPLE_ALLOC_MAX bare_env "inspect_architecture.py"
           eq_refl).
Defined.

Lemma short_array_header_detected_witness :
  inspect_gguf_raw_f SAMPLE_ALLOC_MAX
    (start (header 3 0 1 ++ flat_map layout []
            ++ le_encode 8 (len [x74]) ++ [x74] ++ le_encode 4 9
            ++ le_encode 4 8 ++ [x02; x00]))
  = (Ok tt, {| unread := []; position := 43 |},
     [RawReadMode; GGUFVersion 3; TensorCount 0; KVCount 1; MetadataHeading;
      KVError StructError]).
Proof.
  exact (short_array_header_detected SAMPLE_ALLOC_MAX 3 0 1 [] [x74]
           (le_encode 4 8 ++ [x02; x00])
           ltac:(lia) ltac:(lia) ltac:(vm_compute; intuition congruence)
           eq_refl eq_refl ltac:(reflexivity)).
Defined.

Lemma version_and_tensor_count_only_printed_witness :
  exists r f' o,
    inspect_gguf_raw_f SAMPLE_ALLOC_MAX (start (header 3 0 1 ++ [x00]))
    = (r, f', header_lines 3 0 1 ++ o)
    /\ inspect_gguf_raw_f SAMPLE_ALLOC_MAX (start (header 99 7 1 ++ [x00]))
       = (r, f', header_lines 99 7 1 ++ o).
Proof.
  exact (version_and_tensor_count_only_printed SAMPLE_ALLOC_MAX 3 99 0 7 1 [x00]
           ltac:(lia) ltac:(lia) ltac:(lia) ltac:(lia) ltac:(lia)).
Defined.

Lemma short_string_field_not_detected_witness :
  (inspect_gguf_raw_f SAMPLE_ALLOC_MAX
     (start ((header 3 0 1 ++ flat_map layout [])
             ++ le_encode 8 (len [x6b]) ++ [x6b] ++ le_encode 4 8
             ++ le_encode 8 5 ++ [x68; x69]))
   = (Ok tt, {| unread := []; position := 47 |},
      [RawReadMode; GGUFVersion 3; TensorCount 0; KVCount 1; MetadataHeading;
       Pair [107] (VStr [104; 105])])
   /\
   inspect_gguf_raw_f SAMPLE_ALLOC_MAX
     (start ((header 3 0 1 ++ flat_map layout [])
             ++ le_encode 8 5 ++ [x68; x69]))
   = (Ok tt, {| unread := []; position := 34 |},
      [RawReadMode; GGUFVersion 3; TensorCount 0; KVCount 1; MetadataHeading;
       KVError StructError]))
  /\
  (inspect_gguf_raw_f SAMPLE_ALLOC_MAX
     (start ((header 3 0 1 ++ flat_map layout [])
             ++ le_encode 8 (len [x6b]) ++ [x6b] ++ le_encode 4 8
             ++ le_encode 8 (2 ^ 62) ++ [x68; x69]))
   = (Ok tt, {| unread := [x68; x69]; position := 45 |},
      [RawReadMode; GGUFVersion 3; TensorCount 0; KVCount 1; MetadataHeading;
       KVError MemoryError])
   /\
   inspect_gguf_raw_f SAMPLE_ALLOC_MAX
     (start ((header 3 0 1 ++ flat_map layout [])
             ++ le_encode 8 (2 ^ 62) ++ [x68; x69]))
   = (Ok tt, {| unread := [x68; x69]; position := 32 |},
      [RawReadMode; GGUFVersion 3; TensorCount 0; KVCount 1; MetadataHeading;
       KVError MemoryError])).
Proof.
  split.
  - exact (proj1 (short_string_field_not_detected SAMPLE_ALLOC_MAX
                    3 0 1 [] [x6b] 5 [x68; x69]
                    ltac:(lia) ltac:(lia) ltac:(vm_compute; intuition congruence)
                    eq_refl eq_refl ltac:(vm_compute; intuition congruence))
                 eq_refl).
  - exact (proj2 (short_string_field_not_detected SAMPLE_ALLOC_MAX
                    3 0 1 [] [x6b] (2 ^ 62) [x68; x69]
                    ltac:(lia) ltac:(lia) ltac:(vm_compute; intuition congruence)
                    eq_refl eq_refl ltac:(vm_compute; intuition congruence))
                 eq_refl).
Defined.

(** C10 as stated fails for a key: the key [b"\xc3\xa9"] declared with
    its two bytes, in a file that ends after the first, is not decoded
    silently.  The one byte that is there is not valid UTF-8 on its own,
    the strict decoding raises, and the walk ends on the diagnostic. *)
Lemma short_key_raises :
  len [xc3] < 2
  /\ inspect_gguf_raw_f SAMPLE_ALLOC_MAX
       (start (header 3 0 1 ++ le_encode 8 2 ++ [xc3]))
     = (Ok tt, {| unread := []; position := 33 |},
        [RawReadMode; GGUFVersion 3; TensorCount 0; KVCount 1;
         MetadataHeading; KVError UnicodeDecodeError]).
Proof. split; [reflexivity | vm_compute; reflexivity]. Qed.
